(** * Audit-p: accounting-identity validation and opening-balance adjustment

    A shallow embedding of the two core scripts of the repository,

    - [src/cleaning/adjust_opening_balance.py]  (module [Adjuster]),
    - [src/cleaning/financial/financial_validation.py]  (module [Validator]),

    followed by the properties of the specification that concern them.

    Conventions of the embedding.
    - A pandas data frame is a [list] of row records; the index label of a
      row is its position (the frames are read with the default range
      index and never re-indexed).
    - A text cell is an [option string]: [None] is the missing value that
      pandas shows as NaN, and [str_cell] is Python's [str] on such a cell.
    - Monetary amounts are exact rationals ([Q]); the scripts use binary
      floating point, whose rounding is not modelled.  The tolerance is the
      rational 1/100.
    - Exceptions are explicit: a function that can raise returns an
      [option] or a sum.
    - The logger is a list of events, newest last.
    - Column names of the CSV files are Chinese; the record fields carry
      the English names that the scripts use for the same quantities in
      their local variables and error records. *)

From Stdlib Require Import ZArith QArith Qabs Lqa Lia Bool.
From Stdlib Require Import String Ascii List.
From stdpp Require Import base list.
Import ListNotations.

Local Open Scope string_scope.
Local Open Scope list_scope.

(** ** Python string primitives used by the scripts *)

(** [s.startswith(p)] *)
Fixpoint startswith (s p : string) : bool :=
  match p with
  | EmptyString => true
  | String b p' =>
      match s with
      | EmptyString => false
      | String a s' => Ascii.eqb a b && startswith s' p'
      end
  end.

(** [s.split(sep)] for a one-character separator: never the empty list. *)
Fixpoint split_on (sep : ascii) (s : string) : list string :=
  match s with
  | EmptyString => [EmptyString]
  | String c rest =>
      if Ascii.eqb c sep then EmptyString :: split_on sep rest
      else match split_on sep rest with
           | [] => [String c EmptyString]
           | part :: parts => String c part :: parts
           end
  end.

(** [sep.join(parts)] *)
Definition join (sep : string) (parts : list string) : string :=
  String.concat sep parts.

Definition nonempty (s : string) : bool := negb (String.eqb s "").

(** A text cell of a data frame and Python's [str] on it. *)
Definition Cell : Type := option string.

Definition str_cell (c : Cell) : string :=
  match c with
  | None => "nan"
  | Some s => s
  end.

Definition cell_eqb (c : Cell) (s : string) : bool :=
  match c with
  | None => false
  | Some t => String.eqb t s
  end.

(** The four-digit year of a period label: the first match of the regular
    expression [(\d{4})], cast to an integer.  [None] when the label has
    no run of four digits (the cast of the missing value raises). *)
Definition is_digit (c : ascii) : bool :=
  (48 <=? nat_of_ascii c)%nat && (nat_of_ascii c <=? 57)%nat.

Definition digit_val (c : ascii) : Z := Z.of_nat (nat_of_ascii c - 48).

Fixpoint extract_year (s : string) : option Z :=
  match s with
  | EmptyString => None
  | String a s' =>
      match s' with
      | String b (String c (String d _)) =>
          if is_digit a && is_digit b && is_digit c && is_digit d
          then Some (1000 * digit_val a + 100 * digit_val b
                     + 10 * digit_val c + digit_val d)%Z
          else extract_year s'
      | _ => None
      end
  end.

(** ** The balance table *)

(** One line of the balance CSV as read from disk.  Amount cells that are
    not numeric are [None]. *)
Record RawRow : Type := mkRawRow {
  raw_company : string;
  raw_period : string;
  raw_subject_code : Cell;
  raw_subject_code_path : Cell;
  raw_subject_name : Cell;
  raw_is_dimension_row : bool;
  raw_dimension_name : Cell;
  raw_opening_debit : option Q;
  raw_opening_credit : option Q;
  raw_period_debit : option Q;
  raw_period_credit : option Q;
  raw_closing_debit : option Q;
  raw_closing_credit : option Q;
  raw_year : option Z
}.

(** One row of the data frame after [_preprocess_data]: amounts are
    numbers and the derived year column is present. *)
Record Row : Type := mkRow {
  company : string;
  period : string;
  subject_code : Cell;
  subject_code_path : Cell;
  subject_name : Cell;
  is_dimension_row : bool;
  dimension_name : Cell;
  opening_debit : Q;
  opening_credit : Q;
  period_debit : Q;
  period_credit : Q;
  closing_debit : Q;
  closing_credit : Q;
  year : Z
}.

Definition set_opening_debit (v : Q) (r : Row) : Row :=
  mkRow (company r) (period r) (subject_code r) (subject_code_path r)
        (subject_name r) (is_dimension_row r) (dimension_name r)
        v (opening_credit r) (period_debit r) (period_credit r)
        (closing_debit r) (closing_credit r) (year r).

Definition set_opening_credit (v : Q) (r : Row) : Row :=
  mkRow (company r) (period r) (subject_code r) (subject_code_path r)
        (subject_name r) (is_dimension_row r) (dimension_name r)
        (opening_debit r) v (period_debit r) (period_credit r)
        (closing_debit r) (closing_credit r) (year r).

(** [pd.to_numeric(col, errors='coerce').fillna(0)] on one cell. *)
Definition to_numeric (c : option Q) : Q :=
  match c with
  | Some q => q
  | None => 0%Q
  end.

(** The body of [_preprocess_data] on one row (the same in both scripts):
    coerce the six amounts, derive the year from the period label. *)
Definition preprocess_row (r : RawRow) : option Row :=
  match extract_year (raw_period r) with
  | None => None
  | Some y =>
      Some (mkRow (raw_company r) (raw_period r) (raw_subject_code r)
                  (raw_subject_code_path r) (raw_subject_name r)
                  (raw_is_dimension_row r) (raw_dimension_name r)
                  (to_numeric (raw_opening_debit r))
                  (to_numeric (raw_opening_credit r))
                  (to_numeric (raw_period_debit r))
                  (to_numeric (raw_period_credit r))
                  (to_numeric (raw_closing_debit r))
                  (to_numeric (raw_closing_credit r))
                  y)
  end.

Fixpoint _preprocess_data (rows : list RawRow) : option (list Row) :=
  match rows with
  | [] => Some []
  | r :: rest =>
      match preprocess_row r, _preprocess_data rest with
      | Some r', Some rest' => Some (r' :: rest')
      | _, _ => None
      end
  end.

(** [df.to_csv(...)] on one row: every column of the frame is written. *)
Definition to_csv_row (r : Row) : RawRow :=
  mkRawRow (company r) (period r) (subject_code r) (subject_code_path r)
           (subject_name r) (is_dimension_row r) (dimension_name r)
           (Some (opening_debit r)) (Some (opening_credit r))
           (Some (period_debit r)) (Some (period_credit r))
           (Some (closing_debit r)) (Some (closing_credit r))
           (Some (year r)).

Inductive AccountType : Type :=
  | asset | liability | equity | income | expense | unknown.

Definition AccountType_eqb (a b : AccountType) : bool :=
  match a, b with
  | asset, asset | liability, liability | equity, equity
  | income, income | expense, expense | unknown, unknown => true
  | _, _ => false
  end.

(** The [if code.startswith('1') ... elif ...] chain shared by every
    classifier of the repository; [None] when no branch returns. *)
Definition leading_digit_type (code : string) : option AccountType :=
  if startswith code "1" then Some asset
  else if startswith code "2" then Some liability
  else if startswith code "3" then Some equity
  else if startswith code "4" then Some income
  else if startswith code "5" || startswith code "6" then Some expense
  else None.

Definition tolerance : Q := (1 # 100)%Q.

(** [abs(x) > tolerance] *)
Definition exceeds_tolerance (x : Q) : bool :=
  negb (Qle_bool (Qabs x) tolerance).

(** The grand-total marker of the account-name column: the two-character
    name U+5408 U+8BA1, UTF-8 bytes E5 90 88 E8 AE A1. *)
Definition grand_total_name : string :=
  String "229" (String "144" (String "136"
    (String "232" (String "174" (String "161" EmptyString))))).

(** ** Effects: files, the logger, exceptions *)

Inductive Exn : Type :=
  | FileNotFoundError
  | ValueError
  | TypeError
  | UnboundLocalError.

(** What the adjuster knows of the file system: the balance file it reads
    and overwrites, the backup copy and the adjustment report. *)
Record Files : Type := mkFiles {
  original_file : option (list RawRow);
  backup_file : option (list RawRow);
  report_file : bool
}.

(** The old and new opening pair of one adjusted row, as logged. *)
Record Adjustment : Type := mkAdjustment {
  adj_index : nat;
  adj_subject_code : Cell;
  adj_subject_name : Cell;
  adj_dimension_name : Cell;
  adj_account_type : AccountType;
  adj_company : string;
  adj_year : Z;
  adj_old_debit : Q;
  adj_new_debit : Q;
  adj_old_credit : Q;
  adj_new_credit : Q
}.

(** Logger events that carry data of the table or the outcome of the run;
    progress lines without such data are left out. *)
Inductive LogEvent : Type :=
  | warning_unknown_type (code : Cell) (t : AccountType)
  | info_adjusted (a : Adjustment)
  | info_adjustments_made (n : nat)
  | info_verified (n_passed n_failed : nat)
  | info_nothing_to_adjust
  | error_still_unbalanced (n_failed : nat)
  | info_saved
  | info_adjustment_done (n : nat)
  | error_exception (e : Exn).

(** The state the adjuster's methods act on: the files, the frame held
    by the object ([self.balance_df], [None] before loading) and the log. *)
Record World : Type := mkWorld {
  files : Files;
  balance_df : option (list Row);
  log : list LogEvent
}.

(** State with exceptions; a raised exception keeps the state reached. *)
Definition M (A : Type) : Type := World -> (Exn + A) * World.

Definition ret {A : Type} (a : A) : M A := fun w => (inr a, w).

Definition bind {A B : Type} (c : M A) (k : A -> M B) : M B :=
  fun w =>
    match c w with
    | (inl e, w') => (inl e, w')
    | (inr a, w') => k a w'
    end.

Definition raise {A : Type} (e : Exn) : M A := fun w => (inl e, w).

(** [try: c  except Exception as e: h e] *)
Definition try_except {A : Type} (c : M A) (h : Exn -> M A) : M A :=
  fun w =>
    match c w with
    | (inl e, w') => h e w'
    | (inr a, w') => (inr a, w')
    end.

Definition get_files : M Files := fun w => (inr (files w), w).

Definition put_files (f : Files) : M unit :=
  fun w => (inr tt, mkWorld f (balance_df w) (log w)).

Definition get_balance_df : M (option (list Row)) :=
  fun w => (inr (balance_df w), w).

Definition put_balance_df (df : list Row) : M unit :=
  fun w => (inr tt, mkWorld (files w) (Some df) (log w)).

Definition logger (evs : list LogEvent) : M unit :=
  fun w => (inr tt, mkWorld (files w) (balance_df w) (log w ++ evs)).

Declare Scope adj_scope.
Delimit Scope adj_scope with adj.
Notation "x <- c ;; k" := (bind c (fun x => k))
  (at level 100, c at next level, right associativity) : adj_scope.
Notation "c ;;; k" := (bind c (fun _ => k))
  (at level 100, right associativity) : adj_scope.

(** ** [adjust_opening_balance.py]: class [OpeningBalanceAdjuster] *)

Module Adjuster.

Definition _get_account_type (row : Row) : AccountType :=
  let subject_code := str_cell (subject_code row) in
  let from_code :=
    if negb (String.eqb subject_code "nan") && negb (String.eqb subject_code "")
    then leading_digit_type (hd "" (split_on "." subject_code))
    else None in
  match from_code with
  | Some t => t
  | None =>
      let subject_code_path := str_cell (subject_code_path row) in
      let from_path :=
        if negb (String.eqb subject_code_path "nan")
           && negb (String.eqb subject_code_path "")
        then match List.filter nonempty (split_on "/" subject_code_path) with
             | main_code :: _ => leading_digit_type main_code
             | [] => None
             end
        else None in
      match from_path with
      | Some t => t
      | None => unknown
      end
  end.

(** First chain of [_calculate_opening_balance]:
    [(closing_net, period_net)] by account type. *)
Definition closing_and_period_net (account_type : AccountType) (row : Row)
  : Q * Q :=
  match account_type with
  | asset =>
      (closing_debit row - closing_credit row,
       period_debit row - period_credit row)%Q
  | liability | equity =>
      (closing_credit row - closing_debit row,
       period_credit row - period_debit row)%Q
  | income =>
      (closing_credit row - closing_debit row,
       period_credit row - period_debit row)%Q
  | expense =>
      (closing_debit row - closing_credit row,
       period_debit row - period_credit row)%Q
  | unknown =>
      (closing_debit row - closing_credit row,
       period_debit row - period_credit row)%Q
  end.

(** Second chain of [_calculate_opening_balance]: the opening net laid on
    the debit or the credit side; [None] in the final [else] branch, where
    the method warns and returns the stored pair. *)
Definition split_opening_net (account_type : AccountType) (opening_net : Q)
  : option (Q * Q) :=
  match account_type with
  | asset =>
      if Qle_bool 0 opening_net then Some (opening_net, 0%Q)
      else Some (0%Q, (- opening_net)%Q)
  | liability | equity =>
      if Qle_bool 0 opening_net then Some (0%Q, opening_net)
      else Some ((- opening_net)%Q, 0%Q)
  | income =>
      if Qle_bool 0 opening_net then Some (0%Q, opening_net)
      else Some ((- opening_net)%Q, 0%Q)
  | expense =>
      if Qle_bool 0 opening_net then Some (opening_net, 0%Q)
      else Some (0%Q, (- opening_net)%Q)
  | unknown => None
  end.

Definition _calculate_opening_balance (row : Row) : (Q * Q) * list LogEvent :=
  let account_type := _get_account_type row in
  let '(closing_net, period_net) := closing_and_period_net account_type row in
  let opening_net := (closing_net - period_net)%Q in
  match split_opening_net account_type opening_net with
  | Some new_pair => (new_pair, [])
  | None =>
      ((opening_debit row, opening_credit row),
       [warning_unknown_type (subject_code row) account_type])
  end.

Definition target_years : list Z := [2024%Z; 2025%Z].

(** [series.isin(values)] on one entry *)
Definition isin (y : Z) (values : list Z) : bool := existsb (Z.eqb y) values.

(** [df[mask]] with its index labels, as [iterrows] yields them. *)
Definition select_years (df : list Row) : list (nat * Row) :=
  List.filter (fun ir => isin (year (snd ir)) target_years)
              (imap (fun idx row => (idx, row)) df).

(** One pass of the loop of [adjust_opening_balances].  [row] comes from
    the copy taken before the loop; the writes go to the live frame. *)
Definition adjust_step (st : list Row * nat * list LogEvent)
  (ir : nat * Row) : list Row * nat * list LogEvent :=
  let '(df, adjustments_made, evs) := st in
  let '(idx, row) := ir in
  if cell_eqb (subject_name row) grand_total_name then st
  else
    let '((new_opening_debit, new_opening_credit), warns) :=
      _calculate_opening_balance row in
    let current_opening_debit := opening_debit row in
    let current_opening_credit := opening_credit row in
    let needs_adjustment :=
      exceeds_tolerance (new_opening_debit - current_opening_debit)
      || exceeds_tolerance (new_opening_credit - current_opening_credit) in
    if needs_adjustment then
      let df1 := alter (set_opening_debit new_opening_debit) idx df in
      let df2 := alter (set_opening_credit new_opening_credit) idx df1 in
      let account_type := _get_account_type row in
      let dimension_info :=
        if is_dimension_row row then dimension_name row else None in
      (df2, S adjustments_made,
       evs ++ warns ++
       [info_adjusted
          (mkAdjustment idx (subject_code row) (subject_name row)
             dimension_info account_type (company row) (year row)
             current_opening_debit new_opening_debit
             current_opening_credit new_opening_credit)])
    else (df, adjustments_made, evs ++ warns).

Definition adjust_loop (df : list Row) : list Row * nat * list LogEvent :=
  fold_left adjust_step (select_years df) (df, 0%nat, []).

(** Result counters of [verify_adjustments]. *)
Record VerifyError : Type := mkVerifyError {
  ve_subject_code : Cell;
  ve_subject_name : Cell;
  ve_dimension_name : Cell;
  ve_account_type : AccountType;
  ve_opening_net : Q;
  ve_period_net : Q;
  ve_expected_closing : Q;
  ve_closing_net : Q;
  ve_difference : Q
}.

Record VerifyResults : Type := mkVerifyResults {
  passed : nat;
  failed : nat;
  errors : list VerifyError
}.

(** The [if/elif] chain of [verify_adjustments]: the nets
    [(opening_net, period_net, closing_net)] it assigns; there is no
    [else], so no assignment happens for the remaining type. *)
Definition assigned_nets (account_type : AccountType) (row : Row)
  : option (Q * Q * Q) :=
  match account_type with
  | asset =>
      Some (opening_debit row - opening_credit row,
            period_debit row - period_credit row,
            closing_debit row - closing_credit row)%Q
  | liability | equity =>
      Some (opening_credit row - opening_debit row,
            period_credit row - period_debit row,
            closing_credit row - closing_debit row)%Q
  | income =>
      Some (opening_credit row - opening_debit row,
            period_credit row - period_debit row,
            closing_credit row - closing_debit row)%Q
  | expense =>
      Some (opening_debit row - opening_credit row,
            period_debit row - period_credit row,
            closing_debit row - closing_credit row)%Q
  | unknown => None
  end.

(** One pass of the loop of [verify_adjustments].  [vars] is the binding
    of the function's local variables [opening_net], [period_net] and
    [closing_net]: [None] while they are unbound, and otherwise what the
    latest assignment left there. *)
Definition verify_step (vars : option (Q * Q * Q)) (res : VerifyResults)
  (row : Row) : Exn + (option (Q * Q * Q) * VerifyResults) :=
  let account_type := _get_account_type row in
  let vars' :=
    match assigned_nets account_type row with
    | Some nets => Some nets
    | None => vars
    end in
  match vars' with
  | None => inl UnboundLocalError
  | Some (opening_net, period_net, closing_net) =>
      let expected_closing := (opening_net + period_net)%Q in
      if exceeds_tolerance (closing_net - expected_closing) then
        let dimension_info :=
          if is_dimension_row row then dimension_name row else None in
        inr (vars',
             mkVerifyResults (passed res) (S (failed res))
               (errors res ++
                [mkVerifyError (subject_code row) (subject_name row)
                   dimension_info account_type opening_net period_net
                   expected_closing closing_net
                   (closing_net - expected_closing)%Q]))
      else
        inr (vars',
             mkVerifyResults (S (passed res)) (failed res) (errors res))
  end.

Fixpoint verify_loop (rows : list Row) (vars : option (Q * Q * Q))
  (res : VerifyResults) : Exn + VerifyResults :=
  match rows with
  | [] => inr res
  | row :: rest =>
      match verify_step vars res row with
      | inl e => inl e
      | inr (vars', res') => verify_loop rest vars' res'
      end
  end.

(** [self.balance_df[mask]] of [verify_adjustments]. *)
Definition target_data (df : list Row) : list Row :=
  List.filter (fun row => isin (year row) target_years) df.

Local Open Scope adj_scope.

Definition load_data : M unit :=
  fs <- get_files ;;
  match original_file fs with
  | None => raise FileNotFoundError
  | Some raw =>
      put_files (mkFiles (original_file fs) (Some raw) (report_file fs)) ;;;
      match _preprocess_data raw with
      | None => raise ValueError
      | Some df => put_balance_df df
      end
  end.

Definition adjust_opening_balances : M nat :=
  df0 <- get_balance_df ;;
  (match df0 with
   | None => load_data
   | Some _ => ret tt
   end) ;;;
  df1 <- get_balance_df ;;
  match df1 with
  | None => raise TypeError
  | Some df =>
      let '(df', adjustments_made, evs) := adjust_loop df in
      put_balance_df df' ;;;
      logger (evs ++ [info_adjustments_made adjustments_made]) ;;;
      ret adjustments_made
  end.

Definition verify_adjustments : M VerifyResults :=
  df0 <- get_balance_df ;;
  match df0 with
  | None => raise TypeError
  | Some df =>
      match verify_loop (target_data df) None (mkVerifyResults 0 0 []) with
      | inl e => raise e
      | inr results =>
          logger [info_verified (passed results) (failed results)] ;;;
          ret results
      end
  end.

Definition save_adjusted_data : M unit :=
  df0 <- get_balance_df ;;
  match df0 with
  | None => raise TypeError
  | Some df =>
      fs <- get_files ;;
      put_files (mkFiles (Some (map to_csv_row df)) (backup_file fs) true) ;;;
      logger [info_saved]
  end.

Definition run_adjustment : M bool :=
  try_except
    (load_data ;;;
     adjustments_made <- adjust_opening_balances ;;
     if Nat.eqb adjustments_made 0 then
       logger [info_nothing_to_adjust] ;;; ret true
     else
       verification_results <- verify_adjustments ;;
       if Nat.ltb 0 (failed verification_results) then
         logger [error_still_unbalanced (failed verification_results)] ;;;
         ret false
       else
         save_adjusted_data ;;;
         logger [info_adjustment_done adjustments_made] ;;;
         ret true)
    (fun e => logger [error_exception e] ;;; ret false).

(** [main]: a fresh adjuster object on the files, the exit code of the
    script and the world the run leaves. *)
Definition main (fs : Files) : Z * World :=
  match run_adjustment (mkWorld fs None []) with
  | (inr true, w) => (0%Z, w)
  | (inr false, w) => (1%Z, w)
  | (inl _, w) => (1%Z, w)
  end.

End Adjuster.

(** ** pandas primitives used by the validator *)

Section GroupBy.
Context {K A : Type}.
Variable key_eqb : K -> K -> bool.
Variable key_leb : K -> K -> bool.
Variable key_of : A -> option K.

(** Insert a key into an ascending list of distinct keys. *)
Fixpoint insert_key (k : K) (ks : list K) : list K :=
  match ks with
  | [] => [k]
  | k' :: rest =>
      if key_eqb k k' then ks
      else if key_leb k k' then k :: ks
      else k' :: insert_key k rest
  end.

Definition group_keys (rows : list A) : list K :=
  fold_left (fun ks r =>
               match key_of r with
               | Some k => insert_key k ks
               | None => ks
               end) rows [].

Definition has_key (k : K) (r : A) : bool :=
  match key_of r with
  | Some k' => key_eqb k k'
  | None => false
  end.

(** [df.groupby(keys)]: the groups in ascending key order, each with its
    rows in frame order; rows with a missing key cell belong to no
    group. *)
Definition groupby (rows : list A) : list (K * list A) :=
  map (fun k => (k, List.filter (has_key k) rows)) (group_keys rows).

End GroupBy.

Definition pair_eqb (a b : string * string) : bool :=
  String.eqb (fst a) (fst b) && String.eqb (snd a) (snd b).

Definition pair_leb (a b : string * string) : bool :=
  match String.compare (fst a) (fst b) with
  | Lt => true
  | Gt => false
  | Eq => String.leb (snd a) (snd b)
  end.

Definition triple_eqb (a b : string * string * string) : bool :=
  pair_eqb (fst a) (fst b) && String.eqb (snd a) (snd b).

Definition triple_leb (a b : string * string * string) : bool :=
  if pair_eqb (fst a) (fst b) then String.leb (snd a) (snd b)
  else pair_leb (fst a) (fst b).

(** [group.sort_values(year column)]: ascending by year.  Rows of equal
    year keep their order here; pandas makes no promise for them. *)
Fixpoint insert_by_year (r : Row) (sorted : list Row) : list Row :=
  match sorted with
  | [] => [r]
  | r' :: rest =>
      if (year r <? year r')%Z then r :: sorted
      else r' :: insert_by_year r rest
  end.

Definition sort_by_year (group : list Row) : list Row :=
  fold_left (fun sorted r => insert_by_year r sorted) group [].

(** Python's [sum(...)] over amounts. *)
Definition sum_amounts (xs : list Q) : Q := fold_left Qplus xs 0%Q.

(** ** The voucher table *)

(** One row of the voucher frame after [_preprocess_data], with the
    columns the reconciliation reads.  [fiscal_year] is the text of the
    fiscal-year cell. *)
Record Voucher : Type := mkVoucher {
  v_company : string;
  fiscal_year : string;
  v_subject_code : Cell;
  debit_amount : Q;
  credit_amount : Q
}.

(** One row of the grouped voucher sums. *)
Record VoucherSum : Type := mkVoucherSum {
  vs_company : string;
  vs_fiscal_year : Z;
  vs_subject_code : string;
  vs_debit : Q;
  vs_credit : Q
}.

Definition remove_commas (s : string) : string :=
  String.concat "" (split_on "," s).

Fixpoint all_digits (s : string) : bool :=
  match s with
  | EmptyString => true
  | String c rest => is_digit c && all_digits rest
  end.

Fixpoint digits_value (acc : Z) (s : string) : Z :=
  match s with
  | EmptyString => acc
  | String c rest => digits_value (10 * acc + digit_val c)%Z rest
  end.

(** The cast of a fiscal-year label,
    [label.replace(',', '')] then to float then to int, on plain decimal
    numerals: digits with an optional fraction, which the cast to int
    drops.  Any other text is outside this model and yields [None]. *)
Definition parse_fiscal_year (label : string) : option Z :=
  match split_on "." (remove_commas label) with
  | [whole] =>
      if nonempty whole && all_digits whole
      then Some (digits_value 0 whole) else None
  | [whole; frac] =>
      if nonempty whole && all_digits whole && all_digits frac
      then Some (digits_value 0 whole) else None
  | _ => None
  end.

(** ** [financial_validation.py]: class [FinancialDataValidator] *)

Module Validator.

(** Pass and fail counters with the collected error records. *)
Record Results (E : Type) : Type := mkResults {
  passed : nat;
  failed : nat;
  errors : list E
}.
Arguments mkResults {E} _ _ _.
Arguments passed {E} _.
Arguments failed {E} _.
Arguments errors {E} _.

Definition no_results {E : Type} : Results E := mkResults 0 0 [].

Definition count_pass {E : Type} (res : Results E) : Results E :=
  mkResults (S (passed res)) (failed res) (errors res).

Definition count_fail {E : Type} (res : Results E) (e : E) : Results E :=
  mkResults (passed res) (S (failed res)) (errors res ++ [e]).

Record EquationError : Type := mkEquationError {
  ee_subject_code : Cell;
  ee_subject_name : Cell;
  ee_dimension_name : Cell;
  ee_account_type : AccountType;
  ee_company : string;
  ee_period : string;
  ee_opening_net : Q;
  ee_period_net : Q;
  ee_closing_net : Q;
  ee_expected_closing : Q;
  ee_difference : Q
}.

Record ContinuityError : Type := mkContinuityError {
  ce_subject_code : string;
  ce_company : string;
  ce_prev_year : Z;
  ce_curr_year : Z;
  ce_prev_closing_debit : Q;
  ce_prev_closing_credit : Q;
  ce_curr_opening_debit : Q;
  ce_curr_opening_credit : Q
}.

(** The labels of the comparisons of the hierarchy check. *)
Inductive CheckField : Type :=
  | opening_net_field | period_net_field | closing_net_field
  | opening_debit_field | opening_credit_field
  | period_debit_field | period_credit_field
  | closing_debit_field | closing_credit_field.

Record HierarchyError : Type := mkHierarchyError {
  he_parent_subject : string;
  he_account_type : AccountType;
  he_company : string;
  he_period : string;
  he_field : CheckField;
  he_parent_value : Q;
  he_child_sum : Q;
  he_difference : Q
}.

Record VoucherError : Type := mkVoucherError {
  ve_subject_code : string;
  ve_subject_name : Cell;
  ve_dimension_name : Cell;
  ve_company : string;
  ve_year : Z;
  ve_voucher_debit : Q;
  ve_voucher_credit : Q;
  ve_balance_debit : Q;
  ve_balance_credit : Q;
  ve_debit_difference : Q;
  ve_credit_difference : Q
}.

(** The dictionary [self.validation_results], one slot per check. *)
Record ValidationResults : Type := mkValidationResults {
  accounting_equation : option (Results EquationError);
  year_continuity : option (Results ContinuityError);
  hierarchy_correctness : option (Results HierarchyError);
  voucher_reconciliation : option (Results VoucherError)
}.

(** The fields of the validator object. *)
Record State : Type := mkState {
  balance_df : list Row;
  voucher_df : list Voucher;
  validation_results : ValidationResults
}.

Definition _get_account_type (subject_code : Cell) : AccountType :=
  let code := hd "" (split_on "." (str_cell subject_code)) in
  match leading_digit_type code with
  | Some t => t
  | None => unknown
  end.

(** *** Check 1: the accounting equation *)

(** The type chain of [validate_accounting_equation]:
    [(opening_net, period_net, closing_net, expected_closing)], or
    [None] in the final [else] branch, which skips the row. *)
Definition equation_nets (account_type : AccountType) (row : Row)
  : option (Q * Q * Q * Q) :=
  match account_type with
  | asset =>
      let opening_net := (opening_debit row - opening_credit row)%Q in
      let period_net := (period_debit row - period_credit row)%Q in
      let closing_net := (closing_debit row - closing_credit row)%Q in
      Some (opening_net, period_net, closing_net,
            (opening_net + period_net)%Q)
  | liability | equity =>
      let opening_net := (opening_credit row - opening_debit row)%Q in
      let period_net := (period_credit row - period_debit row)%Q in
      let closing_net := (closing_credit row - closing_debit row)%Q in
      Some (opening_net, period_net, closing_net,
            (opening_net + period_net)%Q)
  | income =>
      let opening_net := (opening_credit row - opening_debit row)%Q in
      let period_net := (period_credit row - period_debit row)%Q in
      let closing_net := (closing_credit row - closing_debit row)%Q in
      Some (opening_net, period_net, closing_net,
            (opening_net + period_net)%Q)
  | expense =>
      let opening_net := (opening_debit row - opening_credit row)%Q in
      let period_net := (period_debit row - period_credit row)%Q in
      let closing_net := (closing_debit row - closing_credit row)%Q in
      Some (opening_net, period_net, closing_net,
            (opening_net + period_net)%Q)
  | unknown => None
  end.

Definition equation_error (account_type : AccountType) (row : Row)
  (opening_net period_net closing_net expected_closing : Q)
  : EquationError :=
  mkEquationError (subject_code row) (subject_name row)
    (if is_dimension_row row then dimension_name row else None)
    account_type (company row) (period row)
    opening_net period_net closing_net expected_closing
    (closing_net - expected_closing)%Q.

(** One pass of the loop over [self.balance_df.iterrows()]. *)
Definition equation_step (res : Results EquationError) (row : Row)
  : Results EquationError :=
  let account_type := _get_account_type (subject_code row) in
  match equation_nets account_type row with
  | None => res
  | Some (opening_net, period_net, closing_net, expected_closing) =>
      if exceeds_tolerance (closing_net - expected_closing) then
        count_fail res
          (equation_error account_type row
             opening_net period_net closing_net expected_closing)
      else count_pass res
  end.

Definition validate_accounting_equation (st : State)
  : Results EquationError * State :=
  let results := fold_left equation_step (balance_df st) no_results in
  let vr := validation_results st in
  (results,
   mkState (balance_df st) (voucher_df st)
     (mkValidationResults (Some results) (year_continuity vr)
        (hierarchy_correctness vr) (voucher_reconciliation vr))).

(** *** Check 2: year continuity *)

Definition company_code_key (row : Row) : option (string * string) :=
  match subject_code row with
  | Some code => Some (company row, code)
  | None => None
  end.

(** One pass of the inner loop: [prev_year] and [curr_year] are the rows
    at positions [i-1] and [i] of the sorted group. *)
Definition continuity_step (company subject_code : string)
  (res : Results ContinuityError) (prev_year curr_year : Row)
  : Results ContinuityError :=
  if negb (year curr_year =? year prev_year + 1)%Z then res
  else
    let prev_closing_debit := closing_debit prev_year in
    let prev_closing_credit := closing_credit prev_year in
    let curr_opening_debit := opening_debit curr_year in
    let curr_opening_credit := opening_credit curr_year in
    let debit_match :=
      Qle_bool (Qabs (prev_closing_debit - curr_opening_debit)) tolerance in
    let credit_match :=
      Qle_bool (Qabs (prev_closing_credit - curr_opening_credit)) tolerance in
    if negb (debit_match && credit_match) then
      count_fail res
        (mkContinuityError subject_code company
           (year prev_year) (year curr_year)
           prev_closing_debit prev_closing_credit
           curr_opening_debit curr_opening_credit)
    else count_pass res.

(** [for i in range(1, len(group))] over the sorted group. *)
Fixpoint continuity_group (company subject_code : string)
  (res : Results ContinuityError) (group : list Row)
  : Results ContinuityError :=
  match group with
  | prev_year :: ((curr_year :: _) as rest) =>
      continuity_group company subject_code
        (continuity_step company subject_code res prev_year curr_year) rest
  | _ => res
  end.

Definition continuity_loop (df : list Row) : Results ContinuityError :=
  fold_left
    (fun res g =>
       let '((company, subject_code), group) := g in
       let group := sort_by_year group in
       if (length group <? 2)%nat then res
       else continuity_group company subject_code res group)
    (groupby pair_eqb pair_leb company_code_key df) no_results.

Definition validate_year_continuity (st : State)
  : Results ContinuityError * State :=
  let results := continuity_loop (balance_df st) in
  let vr := validation_results st in
  (results,
   mkState (balance_df st) (voucher_df st)
     (mkValidationResults (accounting_equation vr) (Some results)
        (hierarchy_correctness vr) (voucher_reconciliation vr))).

(** *** Check 3: parents against the sum of their children *)

(** [tree[parent_code].append(row)], creating the entry when absent; the
    dictionary keeps its keys in insertion order. *)
Fixpoint tree_append (tree : list (string * list Row))
  (parent_code : string) (row : Row) : list (string * list Row) :=
  match tree with
  | [] => [(parent_code, [row])]
  | (k, rows) :: rest =>
      if String.eqb k parent_code then (k, rows ++ [row]) :: rest
      else (k, rows) :: tree_append rest parent_code row
  end.

(** [max(candidates, key=len)]: the first candidate of greatest length. *)
Definition longest (candidates : list string) : option string :=
  match candidates with
  | [] => None
  | c :: rest =>
      Some (fold_left
              (fun best x =>
                 if (String.length best <? String.length x)%nat
                 then x else best)
              rest c)
  end.

(** The proper dot-prefixes of a code that occur as a code of the frame. *)
Definition parent_candidates (codes : list string) (subject_code : string)
  : list string :=
  let parts := split_on "." subject_code in
  List.filter (fun parent_code => existsb (String.eqb parent_code) codes)
    (map (fun i => join "." (take i parts)) (seq 1 (length parts - 1))).

Definition _build_subject_tree (df : list Row)
  : list (string * list Row) :=
  let codes := map (fun r => str_cell (subject_code r)) df in
  fold_left
    (fun tree row =>
       match longest (parent_candidates codes
                        (str_cell (subject_code row))) with
       | Some parent_code => tree_append tree parent_code row
       | None => tree
       end)
    df [].

(** The list [checks] built for one parent: label, parent value, child
    sum. *)
Definition hierarchy_checks (parent_account_type : AccountType)
  (parent_row : Row) (children : list Row) : list (CheckField * Q * Q) :=
  let child_debit_open := sum_amounts (map opening_debit children) in
  let child_credit_open := sum_amounts (map opening_credit children) in
  let child_debit_current := sum_amounts (map period_debit children) in
  let child_credit_current := sum_amounts (map period_credit children) in
  let child_debit_close := sum_amounts (map closing_debit children) in
  let child_credit_close := sum_amounts (map closing_credit children) in
  match parent_account_type with
  | asset | expense =>
      [ (opening_net_field,
         opening_debit parent_row - opening_credit parent_row,
         child_debit_open - child_credit_open);
        (period_net_field,
         period_debit parent_row - period_credit parent_row,
         child_debit_current - child_credit_current);
        (closing_net_field,
         closing_debit parent_row - closing_credit parent_row,
         child_debit_close - child_credit_close) ]%Q
  | liability | equity | income =>
      [ (opening_net_field,
         opening_credit parent_row - opening_debit parent_row,
         child_credit_open - child_debit_open);
        (period_net_field,
         period_credit parent_row - period_debit parent_row,
         child_credit_current - child_debit_current);
        (closing_net_field,
         closing_credit parent_row - closing_debit parent_row,
         child_credit_close - child_debit_close) ]%Q
  | unknown =>
      [ (opening_debit_field, opening_debit parent_row, child_debit_open);
        (opening_credit_field, opening_credit parent_row, child_credit_open);
        (period_debit_field, period_debit parent_row, child_debit_current);
        (period_credit_field, period_credit parent_row,
         child_credit_current);
        (closing_debit_field, closing_debit parent_row, child_debit_close);
        (closing_credit_field, closing_credit parent_row,
         child_credit_close) ]
  end.

(** One pass of the loop over [checks]. *)
Definition check_step (parent_code : string)
  (parent_account_type : AccountType) (company period : string)
  (res : Results HierarchyError) (chk : CheckField * Q * Q)
  : Results HierarchyError :=
  let '(field, parent_val, child_sum) := chk in
  if exceeds_tolerance (parent_val - child_sum) then
    count_fail res
      (mkHierarchyError parent_code parent_account_type company period
         field parent_val child_sum (parent_val - child_sum)%Q)
  else count_pass res.

(** One pass of the loop over [subject_tree.items()].  The membership
    test and the selection of the first row carrying the parent code are
    one [find]. *)
Definition hierarchy_parent (company period : string)
  (period_group : list Row) (res : Results HierarchyError)
  (entry : string * list Row) : Results HierarchyError :=
  let '(parent_code, children) := entry in
  match find (fun r => cell_eqb (subject_code r) parent_code)
             period_group with
  | None => res
  | Some parent_row =>
      let parent_account_type := _get_account_type (Some parent_code) in
      fold_left (check_step parent_code parent_account_type company period)
        (hierarchy_checks parent_account_type parent_row children) res
  end.

Definition company_period_key (row : Row) : option (string * string) :=
  Some (company row, period row).

Definition hierarchy_loop (df : list Row) : Results HierarchyError :=
  let non_dimension_df :=
    List.filter (fun r => negb (is_dimension_row r)) df in
  fold_left
    (fun res g =>
       let '((company, period), period_group) := g in
       let subject_tree := _build_subject_tree period_group in
       fold_left (hierarchy_parent company period period_group)
         subject_tree res)
    (groupby pair_eqb pair_leb company_period_key non_dimension_df)
    no_results.

Definition validate_hierarchy_correctness (st : State)
  : Results HierarchyError * State :=
  let results := hierarchy_loop (balance_df st) in
  let vr := validation_results st in
  (results,
   mkState (balance_df st) (voucher_df st)
     (mkValidationResults (accounting_equation vr) (year_continuity vr)
        (Some results) (voucher_reconciliation vr))).

(** *** Check 4: voucher sums against the balance table *)

Definition voucher_key (v : Voucher) : option (string * string * string) :=
  match v_subject_code v with
  | Some code => Some (v_company v, fiscal_year v, code)
  | None => None
  end.

(** One group of the voucher frame summed, its year label cast. *)
Definition summarize_group (g : (string * string * string) * list Voucher)
  : option VoucherSum :=
  let '((company, label, code), rows) := g in
  match parse_fiscal_year label with
  | None => None
  | Some y =>
      Some (mkVoucherSum company y code
              (sum_amounts (map debit_amount rows))
              (sum_amounts (map credit_amount rows)))
  end.

Fixpoint summarize_groups
  (gs : list ((string * string * string) * list Voucher))
  : option (list VoucherSum) :=
  match gs with
  | [] => Some []
  | g :: rest =>
      match summarize_group g, summarize_groups rest with
      | Some s, Some ss => Some (s :: ss)
      | _, _ => None
      end
  end.

(** [voucher_summary]; [None] when a year label cannot be cast. *)
Definition voucher_summary (vdf : list Voucher) : option (list VoucherSum) :=
  summarize_groups (groupby triple_eqb triple_leb voucher_key vdf).

(** Balance rows whose code text occurs among the voucher codes. *)
Definition balance_filtered (summary : list VoucherSum) (df : list Row)
  : list Row :=
  List.filter
    (fun r => existsb (String.eqb (str_cell (subject_code r)))
                      (map vs_subject_code summary))
    df.

(** [pd.merge(voucher_summary, balance_filtered, on=[company, code],
    how='inner')]: the left rows in order, each with its matches. *)
Definition merge_inner (summary : list VoucherSum) (rows : list Row)
  : list (VoucherSum * Row) :=
  flat_map
    (fun vs =>
       map (fun r => (vs, r))
         (List.filter
            (fun r => String.eqb (vs_company vs) (company r)
                      && cell_eqb (subject_code r) (vs_subject_code vs))
            rows))
    summary.

(** The year mask applied to the merged frame. *)
Definition same_year_mask (m : VoucherSum * Row) : bool :=
  ((vs_fiscal_year (fst m) =? 2024)%Z && (year (snd m) =? 2024)%Z)
  || ((vs_fiscal_year (fst m) =? 2025)%Z && (year (snd m) =? 2025)%Z).

Definition merged_df (summary : list VoucherSum) (df : list Row)
  : list (VoucherSum * Row) :=
  List.filter same_year_mask
    (merge_inner summary (balance_filtered summary df)).

(** One pass of the loop over [merged_df.iterrows()]. *)
Definition voucher_step (res : Results VoucherError)
  (m : VoucherSum * Row) : Results VoucherError :=
  let '(vs, row) := m in
  let debit_diff := Qabs (vs_debit vs - period_debit row) in
  let credit_diff := Qabs (vs_credit vs - period_credit row) in
  if negb (Qle_bool debit_diff tolerance)
     || negb (Qle_bool credit_diff tolerance) then
    count_fail res
      (mkVoucherError (vs_subject_code vs) (subject_name row)
         (if is_dimension_row row then dimension_name row else None)
         (vs_company vs) (year row)
         (vs_debit vs) (vs_credit vs)
         (period_debit row) (period_credit row)
         (vs_debit vs - period_debit row)%Q
         (vs_credit vs - period_credit row)%Q)
  else count_pass res.

Definition validate_voucher_reconciliation (st : State)
  : (Exn + Results VoucherError) * State :=
  match voucher_summary (voucher_df st) with
  | None => (inl ValueError, st)
  | Some summary =>
      let results :=
        fold_left voucher_step (merged_df summary (balance_df st))
          no_results in
      let vr := validation_results st in
      (inr results,
       mkState (balance_df st) (voucher_df st)
         (mkValidationResults (accounting_equation vr) (year_continuity vr)
            (hierarchy_correctness vr) (Some results)))
  end.

(** *** Loading, the run of all checks and the reports *)

(** One line of the voucher CSV as read from disk, with the columns the
    reconciliation reads. *)
Record RawVoucher : Type := mkRawVoucher {
  rv_company : string;
  rv_fiscal_year : string;
  rv_subject_code : Cell;
  rv_debit_amount : option Q;
  rv_credit_amount : option Q
}.

(** The voucher part of [_preprocess_data]: the two amounts coerced. *)
Definition preprocess_voucher (v : RawVoucher) : Voucher :=
  mkVoucher (rv_company v) (rv_fiscal_year v) (rv_subject_code v)
    (to_numeric (rv_debit_amount v)) (to_numeric (rv_credit_amount v)).

(** The four checks, named as the keys of [details]. *)
Inductive Validation : Type :=
  | accounting_equation_check
  | year_continuity_check
  | hierarchy_correctness_check
  | voucher_reconciliation_check.

(** An error record of any of the four checks. *)
Inductive ErrorRecord : Type :=
  | equation_record (e : EquationError)
  | continuity_record (e : ContinuityError)
  | hierarchy_record (e : HierarchyError)
  | voucher_record (e : VoucherError).

Definition tag_results {E : Type} (tag : E -> ErrorRecord) (r : Results E)
  : Results ErrorRecord :=
  mkResults (passed r) (failed r) (map tag (errors r)).

(** The dictionary [overall_results]; [details] keeps insertion order. *)
Record Overall : Type := mkOverall {
  total_passed : nat;
  total_failed : nat;
  details : list (Validation * Results ErrorRecord)
}.

(** One section of the text report: the counters of a check, the first
    ten errors, and the number of errors left out when there are more. *)
Record ReportSection : Type := mkReportSection {
  sec_name : Validation;
  sec_passed : nat;
  sec_failed : nat;
  sec_shown : list ErrorRecord;
  sec_more : option nat
}.

Record TextReport : Type := mkTextReport {
  rep_total_passed : nat;
  rep_total_failed : nat;
  rep_sections : list ReportSection
}.

(** The CSV report: one line per error with the name of its check, or
    the single line saying that every check passed. *)
Inductive CsvReport : Type :=
  | csv_all_passed
  | csv_errors (all_errors : list (Validation * ErrorRecord)).

(** The files of the validator and the fields of its object; [frames]
    is [None] until both frames are loaded. *)
Record Object : Type := mkObject {
  balance_file : option (list RawRow);
  voucher_file : option (list RawVoucher);
  report_txt : option TextReport;
  report_csv : option CsvReport;
  frames : option (list Row * list Voucher);
  results : ValidationResults
}.

(** [load_data]: both files read and preprocessed, or the exception. *)
Definition load_data (o : Object) : Exn + (list Row * list Voucher) :=
  match balance_file o with
  | None => inl FileNotFoundError
  | Some raw_balance =>
      match voucher_file o with
      | None => inl FileNotFoundError
      | Some raw_voucher =>
          match _preprocess_data raw_balance with
          | None => inl ValueError
          | Some df => inr (df, map preprocess_voucher raw_voucher)
          end
      end
  end.

Definition lift_check {E : Type} (tag : E -> ErrorRecord)
  (check : State -> Results E * State)
  : State -> (Exn + Results ErrorRecord) * State :=
  fun st => let '(r, st') := check st in (inr (tag_results tag r), st').

(** The list [validations] with the names of its functions. *)
Definition validations
  : list (Validation * (State -> (Exn + Results ErrorRecord) * State)) :=
  [ (accounting_equation_check,
     lift_check equation_record validate_accounting_equation);
    (year_continuity_check,
     lift_check continuity_record validate_year_continuity);
    (hierarchy_correctness_check,
     lift_check hierarchy_record validate_hierarchy_correctness);
    (voucher_reconciliation_check,
     fun st =>
       match validate_voucher_reconciliation st with
       | (inl e, st') => (inl e, st')
       | (inr r, st') => (inr (tag_results voucher_record r), st')
       end) ].

(** One pass of the loop over [validations]: a check that raises is
    logged and contributes nothing. *)
Definition validation_step
  (acc : Overall * State * list (Validation * Exn))
  (v : Validation * (State -> (Exn + Results ErrorRecord) * State))
  : Overall * State * list (Validation * Exn) :=
  let '(overall, st, failures) := acc in
  match snd v st with
  | (inr result, st') =>
      (mkOverall (total_passed overall + passed result)
         (total_failed overall + failed result)
         (details overall ++ [(fst v, result)]),
       st', failures)
  | (inl e, st') => (overall, st', failures ++ [(fst v, e)])
  end.

Definition validation_loop (st : State)
  : Overall * State * list (Validation * Exn) :=
  fold_left validation_step validations (mkOverall 0 0 [], st, []).

(** The text written by [_generate_report], section by section. *)
Definition report_section (d : Validation * Results ErrorRecord)
  : ReportSection :=
  let '(name, result) := d in
  mkReportSection name (passed result) (failed result)
    (take 10 (errors result))
    (if (10 <? length (errors result))%nat
     then Some (length (errors result) - 10)%nat else None).

Definition text_report (overall : Overall) : TextReport :=
  mkTextReport (total_passed overall) (total_failed overall)
    (map report_section (details overall)).

(** The lines collected by [_generate_csv_report]. *)
Definition all_errors (overall : Overall)
  : list (Validation * ErrorRecord) :=
  flat_map (fun d => map (fun e => (fst d, e)) (errors (snd d)))
    (details overall).

Definition csv_report (overall : Overall) : CsvReport :=
  match all_errors overall with
  | [] => csv_all_passed
  | errs => csv_errors errs
  end.

(** [run_all_validations]: load when a frame is missing, run the four
    checks, write both reports.  The last component lists the checks
    that raised. *)
Definition run_all_validations (o : Object)
  : Exn + (Overall * Object * list (Validation * Exn)) :=
  let loaded :=
    match frames o with
    | Some fr => inr fr
    | None => load_data o
    end in
  match loaded with
  | inl e => inl e
  | inr (df, vdf) =>
      let '(overall, st, failures) :=
        validation_loop (mkState df vdf (results o)) in
      inr (overall,
           mkObject (balance_file o) (voucher_file o)
             (Some (text_report overall)) (Some (csv_report overall))
             (Some (balance_df st, voucher_df st))
             (validation_results st),
           failures)
  end.

(** [main]: a fresh validator object on the files of [o]; the exit code
    of the script. *)
Definition main (o : Object) : Z :=
  match run_all_validations
          (mkObject (balance_file o) (voucher_file o)
             (report_txt o) (report_csv o) None
             (mkValidationResults None None None None)) with
  | inl _ => 1%Z
  | inr _ => 0%Z
  end.

End Validator.

(** ** Vocabulary of the specification *)

(** The two sides of an amount pair [(debit, credit)]. *)
Inductive Side : Type := debit_side | credit_side.

(** The normal-balance side of a classification: debit for assets and
    expenses, credit for liabilities, equity and income. *)
Definition normal_side (t : AccountType) : option Side :=
  match t with
  | asset | expense => Some debit_side
  | liability | equity | income => Some credit_side
  | unknown => None
  end.

(** The signed net of a pair on a side, in the words of the
    specification. *)
Definition net (side : Side) (pair : Q * Q) : Q :=
  match side with
  | debit_side => (fst pair - snd pair)%Q
  | credit_side => (snd pair - fst pair)%Q
  end.

(** The inverse conversion, in the words of the specification. *)
Definition toPair (n : Q) (side : Side) : Q * Q :=
  if Qle_bool 0 n then
    match side with
    | debit_side => (n, 0%Q)
    | credit_side => (0%Q, n)
    end
  else
    match side with
    | debit_side => (0%Q, (- n)%Q)
    | credit_side => ((- n)%Q, 0%Q)
    end.



Definition opening_pair (row : Row) : Q * Q :=
  (opening_debit row, opening_credit row).

Definition period_pair (row : Row) : Q * Q :=
  (period_debit row, period_credit row).

Definition closing_pair (row : Row) : Q * Q :=
  (closing_debit row, closing_credit row).

(** The ledger identity of a row on a side, within the tolerance. *)
Definition identity_holds (side : Side) (row : Row) : Prop :=
  (Qabs (net side (closing_pair row)
         - (net side (opening_pair row) + net side (period_pair row)))
   <= tolerance)%Q.

(** A row with the given codes, name, year and amounts; the remaining
    columns are fixed. *)
Definition sample_row (code path name : Cell) (y : Z)
  (od oc pd pc cd cc : Q) : Row :=
  mkRow "A" "2024" code path name false None od oc pd pc cd cc y.

(** The violation record that the accounting-equation check appends for a
    row, if it appends one. *)
Definition equation_violation (row : Row)
  : option Validator.EquationError :=
  let t := Validator._get_account_type (subject_code row) in
  match Validator.equation_nets t row with
  | None => None
  | Some (opening_net, period_net, closing_net, expected_closing) =>
      if exceeds_tolerance (closing_net - expected_closing)
      then Some (Validator.equation_error t row
                   opening_net period_net closing_net expected_closing)
      else None
  end.

(** Whether the accounting-equation check counts a row as passed. *)
Definition equation_passes (row : Row) : bool :=
  match Validator.equation_nets
          (Validator._get_account_type (subject_code row)) row with
  | None => false
  | Some (_, _, closing_net, expected_closing) =>
      negb (exceeds_tolerance (closing_net - expected_closing))
  end.

(** Whether the validator classifies a row by its code. *)
Definition is_classified (row : Row) : bool :=
  negb (AccountType_eqb (Validator._get_account_type (subject_code row))
          unknown).

Definition empty_validation_results : Validator.ValidationResults :=
  Validator.mkValidationResults None None None None.

(** A validator that has loaded the given balance rows and no vouchers. *)
Definition balance_state (df : list Row) : Validator.State :=
  Validator.mkState df [] empty_validation_results.

(** A row with code 9999 (no type) whose closing debit of 100 has
    neither an opening nor a period amount behind it. *)
Definition unknown_unbalanced_row : Row :=
  sample_row (Some "9999") None None 2024 0 0 0 0 100 0.

(** A row with code 9999 whose amounts are all zero. *)
Definition unknown_balanced_row : Row :=
  sample_row (Some "9999") None None 2024 0 0 0 0 0 0.

(** An asset row with 100 + 20 = 120 on the debit side. *)
Definition balanced_asset_row : Row :=
  sample_row (Some "1001") None None 2024 100 0 20 0 120 0.

(** An asset row whose opening has been altered to 70: 70 + 20 <> 120. *)
Definition unbalanced_asset_row : Row :=
  sample_row (Some "1001") None None 2024 70 0 20 0 120 0.

(** Company A, account 1002: the row of 2023 closing at debit 500, and a
    row of a later year opening at the given debit amount. *)
Definition closing_2023 : Row :=
  mkRow "A" "2023" (Some "1002") None None false None 0 0 500 0 500 0 2023.

Definition opening_in (y : Z) (label : string) (od : Q) : Row :=
  mkRow "A" label (Some "1002") None None false None od 0 0 0 od 0 y.


Definition no_verify_results : Adjuster.VerifyResults :=
  Adjuster.mkVerifyResults 0 0 [].

(** The adjuster holding the given frame, with no file on disk. *)
Definition loaded_world (df : list Row) : World :=
  mkWorld (mkFiles None None false) (Some df) [].







(** A parent with two children whose debit and credit amounts cancel
    across the children: the children sum to debit 150 / credit 50 at
    opening, 50 / 20 over the period and 200 / 70 at closing, the parent
    states the nets 100, 30 and 130 on the debit side alone. *)
Definition cancelling_family (parent_code : string) : list Row :=
  [ mkRow "A" "2024" (Some parent_code) None None false None
      100 0 30 0 130 0 2024;
    mkRow "A" "2024" (Some (String.append parent_code ".01")) None None
      false None 150 0 50 0 200 0 2024;
    mkRow "A" "2024" (Some (String.append parent_code ".02")) None None
      false None 0 50 0 20 0 70 2024 ].



(** Company B, account 6602: one voucher line of the given fiscal year
    with debit 12000, and the balance row of the given year with the
    given cumulative debit. *)
Definition voucher_6602 (label : string) : Voucher :=
  mkVoucher "B" label (Some "6602") 12000 0.


Definition reconciliation_state (vdf : list Voucher) (df : list Row)
  : Validator.State :=
  Validator.mkState df vdf empty_validation_results.

(** The solver reaches a row when its year is a target year and its
    name is not the grand-total marker. *)
Definition solver_visits (row : Row) : bool :=
  Adjuster.isin (year row) Adjuster.target_years
  && negb (cell_eqb (subject_name row) grand_total_name).


Definition derived_opening (row : Row) : Q * Q :=
  fst (Adjuster._calculate_opening_balance row).

Definition needs_adjustment (row : Row) : bool :=
  exceeds_tolerance (fst (derived_opening row) - opening_debit row)
  || exceeds_tolerance (snd (derived_opening row) - opening_credit row).

Definition is_adjusted (row : Row) : bool :=
  solver_visits row && needs_adjustment row.

Definition adjusted_row (row : Row) : Row :=
  if is_adjusted row
  then set_opening_credit (snd (derived_opening row))
         (set_opening_debit (fst (derived_opening row)) row)
  else row.

Definition adjustment_of (idx : nat) (row : Row) : Adjustment :=
  mkAdjustment idx (subject_code row) (subject_name row)
    (if is_dimension_row row then dimension_name row else None)
    (Adjuster._get_account_type row) (company row) (year row)
    (opening_debit row) (fst (derived_opening row))
    (opening_credit row) (snd (derived_opening row)).

(** The events the solver logs for the row at an index. *)
Definition row_events (idx : nat) (row : Row) : list LogEvent :=
  if solver_visits row
  then snd (Adjuster._calculate_opening_balance row)
       ++ (if needs_adjustment row
           then [info_adjusted (adjustment_of idx row)] else [])
  else [].


(** The side on which the identity of a row is read: the normal side of
    its type, and the debit side for a row without type. *)
Definition projection_side (row : Row) : Side :=
  match normal_side (Adjuster._get_account_type row) with
  | Some side => side
  | None => debit_side
  end.


(** A world whose balance file holds the given rows, nothing loaded. *)
Definition world_on_disk (df : list Row) : World :=
  mkWorld (mkFiles (Some (map to_csv_row df)) None false) None [].


(** ** Vocabulary of the further properties *)

(** The year column of a row is the year of its period label. *)
Definition year_consistent (row : Row) : Prop :=
  extract_year (period row) = Some (year row).



Definition has_code (row : Row) : bool :=
  match subject_code row with
  | Some _ => true
  | None => false
  end.

(** A code text without a dot. *)
Fixpoint no_dot (s : string) : bool :=
  match s with
  | EmptyString => true
  | String c rest => negb (Ascii.eqb c ".") && no_dot rest
  end.


(** A validator object on the given files, nothing loaded. *)
Definition fresh_object (bal : option (list RawRow))
  (vou : option (list Validator.RawVoucher)) : Validator.Object :=
  Validator.mkObject bal vou None None None
    (Validator.mkValidationResults None None None None).

(** Equality of two amounts as stored (same numerator and denominator). *)
Definition same_amount (a b : Q) : bool :=
  (Qnum a =? Qnum b)%Z && (Qden a =? Qden b)%positive.

(** Whether the stored opening pair of a row differs from that of
    another. *)
Definition opening_changed (p : Row * Row) : bool :=
  negb (same_amount (opening_debit (fst p)) (opening_debit (snd p))
        && same_amount (opening_credit (fst p)) (opening_credit (snd p))).



(** Whether a row has a grouping key. *)
Definition keyed {K A : Type} (key_of : A -> option K) (r : A) : bool :=
  match key_of r with
  | Some _ => true
  | None => false
  end.

(** The code texts of a frame, as [_build_subject_tree] collects them. *)
Definition code_texts (df : list Row) : list string :=
  map (fun r => str_cell (subject_code r)) df.

(** The failure counter of a result agrees with its error list. *)
Definition consistent_results {E : Type} (r : Validator.Results E) : Prop :=
  Validator.failed r = length (Validator.errors r).

(** The sums of the counters over the entries of [details]. *)
Definition passed_sum (ds : list (Validator.Validation
                                  * Validator.Results Validator.ErrorRecord))
  : nat :=
  list_sum (map (fun d => Validator.passed (snd d)) ds).

Definition failed_sum (ds : list (Validator.Validation
                                  * Validator.Results Validator.ErrorRecord))
  : nat :=
  list_sum (map (fun d => Validator.failed (snd d)) ds).

(** Whether a voucher line carries an account code. *)
Definition voucher_coded (v : Voucher) : bool :=
  match v_subject_code v with
  | Some _ => true
  | None => false
  end.

(** * Properties *)

(** ** Amount comparisons *)


Lemma exceeds_tolerance_false (x : Q) :
  exceeds_tolerance x = false <-> (Qabs x <= tolerance)%Q.
Proof.
  unfold exceeds_tolerance. rewrite negb_false_iff. apply Qle_bool_iff.
Qed.


(** ** Classification *)

Lemma normal_side_known (t : AccountType) :
  t <> unknown -> exists side, normal_side t = Some side.
Proof. destruct t; intros H; try (eexists; reflexivity). congruence. Qed.

(** The nets that the adjuster's post-check assigns are the signed nets
    of the three pairs on the normal side of the type. *)
Lemma assigned_nets_normal_side (t : AccountType) (side : Side) (row : Row) :
  normal_side t = Some side ->
  Adjuster.assigned_nets t row
  = Some (net side (opening_pair row), net side (period_pair row),
          net side (closing_pair row)).
Proof. destruct t; intros [= <-]; reflexivity. Qed.


(** The same for the validator's accounting-equation check. *)
Lemma equation_nets_normal_side (t : AccountType) (side : Side) (row : Row) :
  normal_side t = Some side ->
  Validator.equation_nets t row
  = Some (net side (opening_pair row), net side (period_pair row),
          net side (closing_pair row),
          (net side (opening_pair row) + net side (period_pair row))%Q).
Proof. destruct t; intros [= <-]; reflexivity. Qed.

Lemma equation_nets_unknown (t : AccountType) (row : Row) :
  Validator.equation_nets t row = None <-> t = unknown.
Proof. destruct t; simpl; split; congruence. Qed.

(** ** C3: the pair conversion *)

Lemma split_opening_net_toPair (t : AccountType) (side : Side) (n : Q) :
  normal_side t = Some side ->
  Adjuster.split_opening_net t n = Some (toPair n side).
Proof.
  destruct t; intros [= <-]; unfold Adjuster.split_opening_net, toPair;
    destruct (Qle_bool 0 n); reflexivity.
Qed.

(** On a row of a typed account the solver derives the pair [toPair] of
    closing net minus period net, both on the normal side, and logs
    nothing. *)
Lemma calculate_opening_balance_toPair (row : Row) (side : Side) :
  normal_side (Adjuster._get_account_type row) = Some side ->
  Adjuster._calculate_opening_balance row
  = (toPair (net side (closing_pair row) - net side (period_pair row)) side,
     []).
Proof.
  unfold Adjuster._calculate_opening_balance.
  destruct (Adjuster._get_account_type row) eqn:E; intros [= <-];
    cbn [Adjuster.closing_and_period_net];
    erewrite split_opening_net_toPair by reflexivity; reflexivity.
Qed.



(** ** C4: the classifier of the adjuster *)

Lemma leading_digit_type_cases (code : string) (t : AccountType) :
  leading_digit_type code = Some t ->
  (startswith code "1" = true /\ t = asset)
  \/ (startswith code "2" = true /\ t = liability)
  \/ (startswith code "3" = true /\ t = equity)
  \/ (startswith code "4" = true /\ t = income)
  \/ ((startswith code "5" = true \/ startswith code "6" = true)
      /\ t = expense).
Proof.
  unfold leading_digit_type.
  destruct (startswith code "1") eqn:E1; [intros [= <-]; auto |].
  destruct (startswith code "2") eqn:E2; [intros [= <-]; auto |].
  destruct (startswith code "3") eqn:E3; [intros [= <-]; auto 6 |].
  destruct (startswith code "4") eqn:E4; [intros [= <-]; auto 6 |].
  destruct (startswith code "5") eqn:E5; simpl.
  { intros [= <-]. do 4 right. auto. }
  destruct (startswith code "6") eqn:E6; simpl; [| discriminate].
  intros [= <-]. do 4 right. auto.
Qed.

(** A code that is present and whose leading segment starts with one of
    the digits 1 to 6 decides the type; the path is not read. *)
Lemma get_account_type_by_code (row : Row) (code : string) (t : AccountType) :
  subject_code row = Some code ->
  code <> "nan" -> code <> "" ->
  leading_digit_type (hd "" (split_on "." code)) = Some t ->
  Adjuster._get_account_type row = t.
Proof.
  intros Hc Hnan Hempty Ht. unfold Adjuster._get_account_type.
  rewrite Hc. simpl str_cell.
  apply String.eqb_neq in Hnan, Hempty. rewrite Hnan, Hempty. simpl.
  rewrite Ht. reflexivity.
Qed.

(** A missing code with a missing path is unknown. *)
Lemma get_account_type_blank (row : Row) :
  (subject_code row = None \/ subject_code row = Some "") ->
  (subject_code_path row = None \/ subject_code_path row = Some "") ->
  Adjuster._get_account_type row = unknown.
Proof.
  unfold Adjuster._get_account_type.
  intros [-> | ->] [-> | ->]; reflexivity.
Qed.

(** A present code whose leading segment starts with none of the digits
    falls through to the path. *)
Lemma get_account_type_falls_through (row : Row) (code path : string)
  (t : AccountType) (main_code : string) (parts : list string) :
  subject_code row = Some code ->
  leading_digit_type (hd "" (split_on "." code)) = None ->
  subject_code_path row = Some path ->
  path <> "nan" -> path <> "" ->
  List.filter nonempty (split_on "/" path) = main_code :: parts ->
  leading_digit_type main_code = Some t ->
  Adjuster._get_account_type row = t.
Proof.
  intros Hc Hnone Hp Hnan Hempty Hparts Ht.
  unfold Adjuster._get_account_type.
  rewrite Hc, Hp. simpl str_cell. rewrite Hnone.
  apply String.eqb_neq in Hnan, Hempty. rewrite Hnan, Hempty. simpl negb.
  simpl andb. rewrite Hparts, Ht.
  destruct (negb (code =? "nan")%string && negb (code =? "")%string);
    reflexivity.
Qed.

(** C4, at the input where the code departs from it.  The row carries
    the present code 9999, which starts with none of the digits 1 to 6,
    and the path /1001/: the adjuster's classifier reads the path and
    answers asset, where the claim (and the validator's classifier on the
    same code) answers unknown. *)
Theorem get_account_type_reads_path_after_unmatched_code :
  Adjuster._get_account_type
    (sample_row (Some "9999") (Some "/1001/") None 2024 0 0 0 0 0 0)
  = asset
  /\ leading_digit_type (hd "" (split_on "." "9999")) = None
  /\ Validator._get_account_type (Some "9999") = unknown.
Proof. repeat split; reflexivity. Qed.

(** ** C2 and C9: the accounting-equation check *)

Lemma equation_step_violation (res : Validator.Results Validator.EquationError)
  (row : Row) :
  Validator.equation_step res row
  = Validator.mkResults
      (Validator.passed res + (if equation_passes row then 1 else 0))
      (Validator.failed res + length (omap equation_violation [row]))
      (Validator.errors res ++ omap equation_violation [row]).
Proof.
  unfold Validator.equation_step, equation_passes. simpl omap.
  unfold equation_violation.
  destruct (Validator.equation_nets _ row) as [[[[o p] c] e] |].
  - destruct (exceeds_tolerance (c - e)); simpl;
      unfold Validator.count_fail, Validator.count_pass; f_equal; try lia.
    symmetry. apply app_nil_r.
  - simpl. destruct res as [np nf es]. simpl. f_equal; try lia.
    symmetry. apply app_nil_r.
Qed.

Lemma equation_loop_violations (rows : list Row) :
  forall res : Validator.Results Validator.EquationError,
    fold_left Validator.equation_step rows res
    = Validator.mkResults
        (Validator.passed res + length (List.filter equation_passes rows))
        (Validator.failed res + length (omap equation_violation rows))
        (Validator.errors res ++ omap equation_violation rows).
Proof.
  induction rows as [| row rows IH]; intros res.
  - simpl. destruct res as [np nf es]. simpl. f_equal; try lia.
    symmetry. apply app_nil_r.
  - simpl fold_left. rewrite IH, equation_step_violation. simpl.
    destruct (equation_passes row), (equation_violation row); simpl;
      rewrite <- ?app_assoc; simpl; f_equal; unfold omap; lia.
Qed.




Lemma equation_step_unknown (res : Validator.Results Validator.EquationError)
  (row : Row) :
  Validator._get_account_type (subject_code row) = unknown ->
  Validator.equation_step res row = res.
Proof. intros H. unfold Validator.equation_step. rewrite H. reflexivity. Qed.

Lemma is_classified_false (row : Row) :
  is_classified row = false
  <-> Validator._get_account_type (subject_code row) = unknown.
Proof.
  unfold is_classified.
  destruct (Validator._get_account_type (subject_code row)); simpl;
    split; congruence.
Qed.

Lemma equation_loop_skips_unknown (rows : list Row) :
  forall res : Validator.Results Validator.EquationError,
    fold_left Validator.equation_step rows res
    = fold_left Validator.equation_step (List.filter is_classified rows) res.
Proof.
  induction rows as [| row rows IH]; intros res; [reflexivity |].
  simpl. destruct (is_classified row) eqn:E.
  - simpl. apply IH.
  - apply is_classified_false in E.
    rewrite (equation_step_unknown res row E). apply IH.
Qed.

(** C9 as stated fails: the row with code 9999 is classified unknown and
    breaks the identity on the debit-normal reading, yet the check counts
    it neither as failed nor as passed. *)
Lemma unknown_row_not_evaluated_counterexample :
  Validator._get_account_type (subject_code unknown_unbalanced_row)
  = unknown
  /\ ~ identity_holds debit_side unknown_unbalanced_row
  /\ fst (Validator.validate_accounting_equation
            (balance_state [unknown_unbalanced_row]))
     = Validator.mkResults 0 0 [].
Proof.
  split; [reflexivity |]. split; [| reflexivity].
  unfold identity_holds. intros H. vm_compute in H. apply H. reflexivity.
Qed.

(** C9, amended.  A row that the validator classifies as unknown is
    skipped by the accounting-equation check: the pass counter, the fail
    counter and the error list stay as they were, whatever the amounts of
    the row, and the results over a table are the results over the table
    without its unknown rows. *)
Theorem accounting_equation_skips_unknown
  (st : Validator.State) (res : Validator.Results Validator.EquationError)
  (row : Row) :
  Validator._get_account_type (subject_code row) = unknown ->
  Validator.equation_step res row = res
  /\ equation_violation row = None
  /\ equation_passes row = false
  /\ fst (Validator.validate_accounting_equation st)
     = fst (Validator.validate_accounting_equation
              (Validator.mkState
                 (List.filter is_classified (Validator.balance_df st))
                 (Validator.voucher_df st)
                 (Validator.validation_results st))).
Proof.
  intros H. split; [apply equation_step_unknown; exact H |].
  unfold equation_violation, equation_passes. rewrite H. simpl.
  repeat split. unfold Validator.validate_accounting_equation. simpl.
  apply equation_loop_skips_unknown.
Qed.

Lemma accounting_equation_skips_unknown_witness :
  Validator._get_account_type (subject_code unknown_unbalanced_row)
  = unknown
  /\ Validator.equation_step (Validator.mkResults 3 1 [])
       unknown_unbalanced_row
     = Validator.mkResults 3 1 []
  /\ fst (Validator.validate_accounting_equation
            (balance_state [balanced_asset_row; unknown_unbalanced_row]))
     = fst (Validator.validate_accounting_equation
              (balance_state [balanced_asset_row])).
Proof.
  split; [reflexivity |].
  pose proof (accounting_equation_skips_unknown
                (balance_state [balanced_asset_row; unknown_unbalanced_row])
                (Validator.mkResults 3 1 []) unknown_unbalanced_row
                eq_refl) as [H1 [_ [_ H2]]].
  split; [exact H1 | exact H2].
Defined.

(** ** C8: year continuity *)



Lemma continuity_step_gap (company code : string)
  (res : Validator.Results Validator.ContinuityError)
  (prev_year curr_year : Row) :
  (year curr_year <> year prev_year + 1)%Z ->
  Validator.continuity_step company code res prev_year curr_year = res.
Proof.
  intros Hy. unfold Validator.continuity_step.
  apply Z.eqb_neq in Hy. rewrite Hy. reflexivity.
Qed.






(** ** C10: the post-check of the adjuster on unknown rows *)

(** For a row of a known type the post-check compares the nets of that
    row, whatever the earlier rows left in the local variables. *)
Lemma verify_step_known (vars : option (Q * Q * Q))
  (res : Adjuster.VerifyResults) (row : Row) (side : Side) :
  normal_side (Adjuster._get_account_type row) = Some side ->
  exists res' : Adjuster.VerifyResults,
    Adjuster.verify_step vars res row
    = inr (Some (net side (opening_pair row), net side (period_pair row),
                 net side (closing_pair row)), res')
    /\ (Adjuster.failed res' = Adjuster.failed res
        <-> identity_holds side row)
    /\ (Adjuster.failed res <= Adjuster.failed res')%nat.
Proof.
  intros Hside. unfold Adjuster.verify_step.
  rewrite (assigned_nets_normal_side _ side row Hside).
  pose proof (exceeds_tolerance_false
                (net side (closing_pair row)
                 - (net side (opening_pair row)
                    + net side (period_pair row)))) as Hiff.
  fold (identity_holds side row) in Hiff.
  destruct (exceeds_tolerance _) eqn:E; eexists; (split; [reflexivity |]);
    simpl; (split; [| lia]); rewrite <- Hiff.
  - split; [lia | discriminate].
  - split; reflexivity.
Qed.

(** C10, where the code departs from it.  A first row of unknown type
    makes the post-check raise the unbound-variable error, through the
    method as well; after a balanced asset row, an unknown row that breaks
    the identity is counted as passed; after an unbalanced asset row, a
    balanced unknown row is counted as failed, and its error record
    carries the nets of the asset row before it. *)
Theorem verify_adjustments_unknown_row_reuses_nets :
  Adjuster._get_account_type unknown_unbalanced_row = unknown
  /\ Adjuster._get_account_type unknown_balanced_row = unknown
  /\ Adjuster.verify_loop [unknown_unbalanced_row] None no_verify_results
     = inl UnboundLocalError
  /\ fst (Adjuster.verify_adjustments
            (loaded_world [unknown_balanced_row; balanced_asset_row]))
     = inl UnboundLocalError
  /\ ~ identity_holds debit_side unknown_unbalanced_row
  /\ Adjuster.verify_loop [balanced_asset_row; unknown_unbalanced_row]
       None no_verify_results
     = inr (Adjuster.mkVerifyResults 2 0 [])
  /\ identity_holds debit_side unknown_balanced_row
  /\ Adjuster.verify_loop [unbalanced_asset_row; unknown_balanced_row]
       None no_verify_results
     = inr (Adjuster.mkVerifyResults 0 2
              [Adjuster.mkVerifyError (Some "1001") None None asset
                 70 20 (70 + 20) 120 (120 - (70 + 20));
               Adjuster.mkVerifyError (Some "9999") None None unknown
                 70 20 (70 + 20) 120 (120 - (70 + 20))]).
Proof.
  do 4 (split; [reflexivity |]).
  split.
  { unfold identity_holds. intros H. vm_compute in H. apply H. reflexivity. }
  split; [reflexivity |].
  split; [| reflexivity].
  unfold identity_holds. vm_compute. discriminate.
Qed.

(** ** C5: parents against their children *)


Lemma filter_none_length {A : Type} (f : A -> bool) (l : list A) :
  length (List.filter f l) = 0%nat <-> Forall (fun x => f x = false) l.
Proof.
  induction l as [| x l IH]; simpl.
  - split; [constructor | reflexivity].
  - destruct (f x) eqn:E; simpl.
    + split; [discriminate |]. intros H. inversion H; subst. congruence.
    + rewrite IH. split; [intros H; constructor; assumption |].
      intros H. inversion H; assumption.
Qed.






(** ** C7: vouchers against the balance table *)









(** ** C6: the frame of the solver *)

Lemma adjust_step_visited (df : list Row) (n : nat) (evs : list LogEvent)
  (idx : nat) (row : Row) :
  Adjuster.isin (year row) Adjuster.target_years = true ->
  Adjuster.adjust_step (df, n, evs) (idx, row)
  = (if is_adjusted row
     then alter (set_opening_credit (snd (derived_opening row))) idx
            (alter (set_opening_debit (fst (derived_opening row))) idx df)
     else df,
     (n + (if is_adjusted row then 1 else 0))%nat,
     evs ++ row_events idx row).
Proof.
  intros Hy.
  unfold Adjuster.adjust_step, is_adjusted, row_events, solver_visits,
    needs_adjustment, adjustment_of, derived_opening.
  rewrite Hy.
  destruct (cell_eqb (subject_name row) grand_total_name); cbn [negb andb].
  { rewrite app_nil_r. f_equal. f_equal. lia. }
  destruct (Adjuster._calculate_opening_balance row) as [[nd nc] warns].
  cbn [fst snd].
  destruct (exceeds_tolerance (nd - opening_debit row)
            || exceeds_tolerance (nc - opening_credit row)).
  - f_equal. f_equal. lia.
  - rewrite app_nil_r. f_equal. f_equal. lia.
Qed.

Lemma unvisited_not_adjusted (row : Row) :
  Adjuster.isin (year row) Adjuster.target_years = false ->
  is_adjusted row = false /\ forall idx, row_events idx row = [].
Proof.
  intros Hy. unfold is_adjusted, row_events, solver_visits.
  rewrite Hy. split; reflexivity.
Qed.

Lemma adjust_fold (suffix : list Row) :
  forall (prefix : list Row) (n : nat) (evs : list LogEvent),
    fold_left Adjuster.adjust_step
      (List.filter
         (fun ir => Adjuster.isin (year (snd ir)) Adjuster.target_years)
         (imap (fun i r => (length prefix + i, r)%nat) suffix))
      (prefix ++ suffix, n, evs)
    = (prefix ++ (adjusted_row <$> suffix),
       (n + length (List.filter is_adjusted suffix))%nat,
       evs ++ concat (imap (fun i r => row_events (length prefix + i) r)
                        suffix)).
Proof.
  induction suffix as [| x suffix IH]; intros prefix n evs.
  - simpl. rewrite !app_nil_r. f_equal. f_equal. lia.
  - assert (Hshift : forall x' : Row,
      imap ((fun i r => (length prefix + i, r)%nat) ∘ S) suffix
      = imap (fun i r => (length (prefix ++ [x']) + i, r)%nat) suffix).
    { intros x'. apply imap_ext. intros i r _. simpl.
      rewrite length_app. simpl. f_equal. lia. }
    assert (Hshift' : forall x' : Row,
      imap ((fun i r => row_events (length prefix + i) r) ∘ S) suffix
      = imap (fun i r => row_events (length (prefix ++ [x']) + i) r) suffix).
    { intros x'. apply imap_ext. intros i r _. simpl.
      rewrite length_app. simpl. f_equal. lia. }
    rewrite !imap_cons. cbn [List.filter snd concat fmap list_fmap].
    destruct (Adjuster.isin (year x) Adjuster.target_years) eqn:Hy.
    + cbn [fold_left]. rewrite (adjust_step_visited _ _ _ _ _ Hy).
      rewrite !alter_app_r. cbn [alter list_alter].
      unfold adjusted_row. rewrite (Hshift (adjusted_row x)).
      destruct (is_adjusted x) eqn:Ha.
      * rewrite (cons_middle _ prefix suffix), app_assoc.
        assert (Hlen : length (prefix ++ [adjusted_row x])
                       = length (prefix ++
                           [set_opening_credit (snd (derived_opening x))
                              (set_opening_debit (fst (derived_opening x))
                                 x)]))
          by (rewrite !length_app; reflexivity).
        rewrite Hlen, IH. rewrite <- Hlen.
        rewrite (Hshift' (adjusted_row x)).
        rewrite <- !app_assoc. cbn [app length].
        rewrite Nat.add_0_r. f_equal. f_equal. lia.
      * rewrite (cons_middle _ prefix suffix), app_assoc.
        assert (Hlen : length (prefix ++ [adjusted_row x])
                       = length (prefix ++ [x]))
          by (rewrite !length_app; reflexivity).
        rewrite Hlen, IH. rewrite <- Hlen.
        rewrite (Hshift' (adjusted_row x)).
        rewrite <- !app_assoc. cbn [app length].
        rewrite Nat.add_0_r. reflexivity.
    + destruct (unvisited_not_adjusted x Hy) as [Ha He].
      unfold adjusted_row. rewrite Ha, He. cbn [app].
      rewrite (Hshift x), (Hshift' x).
      rewrite (cons_middle _ prefix suffix), app_assoc, IH.
      rewrite <- !app_assoc. reflexivity.
Qed.

(** The loop of the solver is a map over the rows. *)
Lemma adjust_loop_map (df : list Row) :
  Adjuster.adjust_loop df
  = (adjusted_row <$> df, length (List.filter is_adjusted df),
     concat (imap row_events df)).
Proof.
  unfold Adjuster.adjust_loop, Adjuster.select_years.
  exact (adjust_fold df [] 0%nat []).
Qed.






Lemma exceeds_tolerance_self (x : Q) : exceeds_tolerance (x - x) = false.
Proof.
  apply exceeds_tolerance_false, Qabs_Qle_condition.
  unfold tolerance. split; lra.
Qed.

(** On a row of unknown type the solver derives the stored pair, asks for
    no adjustment and logs the warning. *)
Lemma unknown_row_not_adjusted (row : Row) :
  Adjuster._get_account_type row = unknown ->
  Adjuster._calculate_opening_balance row
  = ((opening_debit row, opening_credit row),
     [warning_unknown_type (subject_code row) unknown])
  /\ needs_adjustment row = false.
Proof.
  intros Hu.
  assert (Hcalc : Adjuster._calculate_opening_balance row
                  = ((opening_debit row, opening_credit row),
                     [warning_unknown_type (subject_code row) unknown])).
  { unfold Adjuster._calculate_opening_balance. rewrite Hu. reflexivity. }
  split; [exact Hcalc |].
  unfold needs_adjustment, derived_opening. rewrite Hcalc. cbn [fst snd].
  rewrite !exceeds_tolerance_self. reflexivity.
Qed.




(** The method on a loaded frame: the frame becomes the map of
    [adjusted_row], the files stay, the log grows by the row events. *)
Lemma adjust_opening_balances_loaded (w : World) (df : list Row) :
  balance_df w = Some df ->
  Adjuster.adjust_opening_balances w
  = (inr (length (List.filter is_adjusted df)),
     mkWorld (files w) (Some (adjusted_row <$> df))
       (log w ++ concat (imap row_events df)
        ++ [info_adjustments_made (length (List.filter is_adjusted df))])).
Proof.
  intros Hdf.
  unfold Adjuster.adjust_opening_balances, bind, get_balance_df.
  rewrite Hdf. cbn [ret balance_df]. rewrite Hdf, adjust_loop_map.
  reflexivity.
Qed.




(** ** C1: the write path of the adjuster *)

Lemma load_data_run (w : World) :
  Adjuster.load_data w
  = match original_file (files w) with
    | None => (inl FileNotFoundError, w)
    | Some raw =>
        match _preprocess_data raw with
        | None =>
            (inl ValueError,
             mkWorld (mkFiles (Some raw) (Some raw) (report_file (files w)))
               (balance_df w) (log w))
        | Some df =>
            (inr tt,
             mkWorld (mkFiles (Some raw) (Some raw) (report_file (files w)))
               (Some df) (log w))
        end
    end.
Proof.
  unfold Adjuster.load_data, bind, get_files, raise.
  destruct (original_file (files w)) as [raw |] eqn:Hraw;
    [| reflexivity].
  cbn [put_files files balance_df log].
  destruct (_preprocess_data raw); reflexivity.
Qed.

Lemma verify_adjustments_loaded (w : World) (df : list Row) :
  balance_df w = Some df ->
  Adjuster.verify_adjustments w
  = match Adjuster.verify_loop (Adjuster.target_data df) None
            no_verify_results with
    | inl e => (inl e, w)
    | inr results =>
        (inr results,
         mkWorld (files w) (balance_df w)
           (log w ++ [info_verified (Adjuster.passed results)
                        (Adjuster.failed results)]))
    end.
Proof.
  intros Hdf.
  unfold Adjuster.verify_adjustments, bind, get_balance_df, logger, ret,
    raise, no_verify_results.
  rewrite Hdf.
  destruct (Adjuster.verify_loop _ None _); cbn; rewrite ?Hdf; reflexivity.
Qed.

Lemma save_adjusted_data_loaded (w : World) (df : list Row) :
  balance_df w = Some df ->
  Adjuster.save_adjusted_data w
  = (inr tt,
     mkWorld (mkFiles (Some (map to_csv_row df))
                (backup_file (files w)) true)
       (balance_df w) (log w ++ [info_saved])).
Proof.
  intros Hdf.
  unfold Adjuster.save_adjusted_data, bind, get_balance_df, get_files,
    put_files, logger.
  rewrite Hdf. cbn. rewrite ?Hdf. reflexivity.
Qed.

Lemma verify_step_monotone (vars vars' : option (Q * Q * Q))
  (res res' : Adjuster.VerifyResults) (row : Row) :
  Adjuster.verify_step vars res row = inr (vars', res') ->
  (Adjuster.failed res <= Adjuster.failed res')%nat.
Proof.
  unfold Adjuster.verify_step.
  destruct (match Adjuster.assigned_nets _ row with
            | Some nets => Some nets
            | None => vars
            end) as [[[o p] c] |]; [| discriminate].
  destruct (exceeds_tolerance _); intros [= _ <-]; simpl; lia.
Qed.

(** When the post-check runs through without a failure, every row of a
    known type among those it examined satisfies the identity on the
    normal side of its type. *)
Lemma verify_loop_sound (rows : list Row) :
  forall (vars : option (Q * Q * Q)) (res res' : Adjuster.VerifyResults),
    Adjuster.verify_loop rows vars res = inr res' ->
    (Adjuster.failed res <= Adjuster.failed res')%nat
    /\ (Adjuster.failed res' = Adjuster.failed res ->
        forall (row : Row) (side : Side),
          In row rows ->
          normal_side (Adjuster._get_account_type row) = Some side ->
          identity_holds side row).
Proof.
  induction rows as [| r rows IH]; intros vars res res' Hloop.
  - injection Hloop as <-. split; [lia |]. intros _ row side [].
  - cbn [Adjuster.verify_loop] in Hloop.
    destruct (Adjuster.verify_step vars res r) as [e | [vars1 res1]] eqn:Hstep;
      [discriminate |].
    pose proof (verify_step_monotone _ _ _ _ _ Hstep) as Hmono.
    destruct (IH vars1 res1 res' Hloop) as [Hle Hall].
    split; [lia |].
    intros Heq row side [<- | Hin] Hside.
    + destruct (verify_step_known vars res r side Hside)
        as [res2 [Hstep2 [Hiff _]]].
      rewrite Hstep in Hstep2. injection Hstep2 as _ <-.
      apply Hiff. lia.
    + apply (Hall ltac:(lia) row side Hin Hside).
Qed.


(** The run of the adjuster, case by case. *)
Lemma run_adjustment_run (w : World) :
  Adjuster.run_adjustment w
  = match original_file (files w) with
    | None =>
        (inr false,
         mkWorld (files w) (balance_df w)
           (log w ++ [error_exception FileNotFoundError]))
    | Some raw =>
        let fs1 := mkFiles (Some raw) (Some raw) (report_file (files w)) in
        match _preprocess_data raw with
        | None =>
            (inr false,
             mkWorld fs1 (balance_df w)
               (log w ++ [error_exception ValueError]))
        | Some df =>
            let n := length (List.filter is_adjusted df) in
            let df' := adjusted_row <$> df in
            let log1 :=
              log w ++ concat (imap row_events df)
              ++ [info_adjustments_made n] in
            if Nat.eqb n 0 then
              (inr true,
               mkWorld fs1 (Some df') (log1 ++ [info_nothing_to_adjust]))
            else
              match Adjuster.verify_loop (Adjuster.target_data df') None
                      no_verify_results with
              | inl e =>
                  (inr false,
                   mkWorld fs1 (Some df') (log1 ++ [error_exception e]))
              | inr res =>
                  let log2 :=
                    log1 ++ [info_verified (Adjuster.passed res)
                               (Adjuster.failed res)] in
                  if Nat.ltb 0 (Adjuster.failed res) then
                    (inr false,
                     mkWorld fs1 (Some df')
                       (log2 ++ [error_still_unbalanced
                                   (Adjuster.failed res)]))
                  else
                    (inr true,
                     mkWorld
                       (mkFiles (Some (map to_csv_row df')) (Some raw) true)
                       (Some df')
                       ((log2 ++ [info_saved])
                        ++ [info_adjustment_done n]))
              end
        end
    end.
Proof.
  unfold Adjuster.run_adjustment, try_except.
  unfold bind at 1. rewrite load_data_run.
  destruct (original_file (files w)) as [raw |]; [| reflexivity].
  destruct (_preprocess_data raw) as [df |]; [| reflexivity].
  cbv beta iota zeta. unfold bind at 1.
  erewrite (adjust_opening_balances_loaded _ df); [| reflexivity].
  cbv beta iota. cbn [files balance_df log].
  destruct (Nat.eqb (length (List.filter is_adjusted df)) 0); [reflexivity |].
  unfold bind at 1.
  erewrite (verify_adjustments_loaded _ (adjusted_row <$> df));
    [| reflexivity].
  cbn [files balance_df log].
  destruct (Adjuster.verify_loop _ None no_verify_results) as [e | res];
    [reflexivity |].
  cbv beta iota.
  destruct (Nat.ltb 0 (Adjuster.failed res)); [reflexivity |].
  unfold bind at 1.
  erewrite (save_adjusted_data_loaded _ (adjusted_row <$> df));
    [| reflexivity].
  reflexivity.
Qed.





(** A row of a typed account that the solver adjusts satisfies the
    identity afterwards. *)
Lemma adjusted_row_identity (row : Row) (side : Side) :
  normal_side (Adjuster._get_account_type row) = Some side ->
  is_adjusted row = true ->
  identity_holds side (adjusted_row row).
Proof.
  intros Hside Ha. unfold adjusted_row, derived_opening. rewrite Ha.
  rewrite (calculate_opening_balance_toPair row side Hside). cbn [fst].
  unfold identity_holds, toPair.
  apply Qabs_Qle_condition. unfold tolerance.
  destruct (Qle_bool 0 _), side; simpl; split; lra.
Qed.

(** The defect of the post-check reaches the write path: after the
    adjusted asset row, the unknown row that breaks the identity is
    counted as passed, the run succeeds, and the row is written. *)
Lemma run_adjustment_writes_unchecked_unknown_row :
  fst (Adjuster.run_adjustment
         (world_on_disk [unbalanced_asset_row; unknown_unbalanced_row]))
  = inr true
  /\ original_file
       (files (snd (Adjuster.run_adjustment
                      (world_on_disk
                         [unbalanced_asset_row; unknown_unbalanced_row]))))
     = Some (map to_csv_row
               [adjusted_row unbalanced_asset_row; unknown_unbalanced_row])
  /\ ~ identity_holds (projection_side unknown_unbalanced_row)
         unknown_unbalanced_row.
Proof.
  split; [reflexivity |]. split; [reflexivity |].
  unfold identity_holds. intros H. vm_compute in H. apply H. reflexivity.
Qed.

(** * Further properties of the two scripts *)

(** ** String primitives *)

Lemma split_on_nonempty (sep : ascii) (s : string) : split_on sep s <> [].
Proof.
  induction s as [| c rest IH]; simpl; [discriminate |].
  destruct (Ascii.eqb c sep); [discriminate |].
  destruct (split_on sep rest); discriminate.
Qed.

(** Joining the parts of a split with the separator gives the text
    back. *)
Lemma join_split_on (sep : ascii) (s : string) :
  join (String sep "") (split_on sep s) = s.
Proof.
  unfold join. induction s as [| c rest IH]; [reflexivity |].
  simpl split_on.
  pose proof (split_on_nonempty sep rest) as Hne.
  destruct (split_on sep rest) as [| p ps]; [congruence |].
  destruct (Ascii.eqb c sep) eqn:E.
  - apply Ascii.eqb_eq in E. subst c.
    change (String.concat (String sep "") ("" :: p :: ps))
      with (String sep (String.concat (String sep "") (p :: ps))).
    rewrite IH. reflexivity.
  - destruct ps as [| q qs].
    + simpl in *. rewrite IH. reflexivity.
    + change (String.concat (String sep "") (String c p :: q :: qs))
        with (String c (String.concat (String sep "") (p :: q :: qs))).
      rewrite IH. reflexivity.
Qed.

Lemma startswith_empty (s : string) : startswith s "" = true.
Proof. destruct s; reflexivity. Qed.

(** The first part of a split starts with the same character as the
    text, unless that character is the separator. *)
Lemma startswith_split_head (sep d : ascii) (s : string) :
  d <> sep ->
  startswith (hd "" (split_on sep s)) (String d "")
  = startswith s (String d "").
Proof.
  intros Hd. destruct s as [| c rest]; [reflexivity |].
  simpl split_on. destruct (Ascii.eqb c sep) eqn:E.
  - apply Ascii.eqb_eq in E. subst c. simpl.
    destruct (Ascii.eqb sep d) eqn:E2; [| reflexivity].
    apply Ascii.eqb_eq in E2. congruence.
  - destruct (split_on sep rest) as [| p ps]; simpl;
      rewrite ?startswith_empty; reflexivity.
Qed.

Lemma leading_digit_type_split_head (s : string) :
  leading_digit_type (hd "" (split_on "." s)) = leading_digit_type s.
Proof.
  unfold leading_digit_type.
  rewrite !startswith_split_head by discriminate. reflexivity.
Qed.

(** ** The two classifiers *)

Lemma validator_type_leading_digit (code : Cell) :
  Validator._get_account_type code
  = match leading_digit_type (str_cell code) with
    | Some t => t
    | None => unknown
    end.
Proof.
  unfold Validator._get_account_type.
  rewrite leading_digit_type_split_head. reflexivity.
Qed.


Lemma adjuster_type_of_typed_code (row : Row) (t : AccountType) :
  Validator._get_account_type (subject_code row) = t ->
  t <> unknown ->
  Adjuster._get_account_type row = t.
Proof.
  intros Ht Hknown.
  pose proof (validator_type_leading_digit (subject_code row)) as Hv.
  rewrite Ht in Hv.
  destruct (leading_digit_type (str_cell (subject_code row))) as [t' |] eqn:E;
    [subst t' | congruence].
  destruct (subject_code row) as [code |] eqn:Hc; [| discriminate E].
  simpl in E.
  apply (get_account_type_by_code row code t Hc).
  - intros ->. discriminate E.
  - intros ->. discriminate E.
  - rewrite leading_digit_type_split_head. exact E.
Qed.

(** X2.  Where the validator finds a type for the code of a row, the adjuster
    finds the same type for the row, whatever its path; so a row the
    adjuster leaves without type has no type for the validator either.
    The two can differ only on rows whose code gives no type. *)
Theorem adjuster_agrees_with_validator_on_typed_codes (row : Row) :
  (Validator._get_account_type (subject_code row) <> unknown ->
   Adjuster._get_account_type row
   = Validator._get_account_type (subject_code row))
  /\ (Adjuster._get_account_type row = unknown ->
      Validator._get_account_type (subject_code row) = unknown).
Proof.
  split.
  - intros Hknown. apply adjuster_type_of_typed_code;
      [reflexivity | exact Hknown].
  - intros Hadj.
    destruct (Validator._get_account_type (subject_code row)) eqn:Hv;
      try reflexivity;
      rewrite (adjuster_type_of_typed_code row _ Hv) in Hadj
        by discriminate;
      discriminate.
Qed.

Lemma adjuster_agrees_with_validator_on_typed_codes_witness :
  Validator._get_account_type
    (subject_code (sample_row (Some "2202.01") (Some "/1001/") None 2024
                     0 0 0 0 0 0)) <> unknown
  /\ Adjuster._get_account_type
       (sample_row (Some "2202.01") (Some "/1001/") None 2024 0 0 0 0 0 0)
     = liability.
Proof.
  assert (H : Validator._get_account_type
                (subject_code (sample_row (Some "2202.01") (Some "/1001/")
                                 None 2024 0 0 0 0 0 0)) <> unknown)
    by (vm_compute; discriminate).
  split; [exact H |].
  exact (proj1 (adjuster_agrees_with_validator_on_typed_codes
                  (sample_row (Some "2202.01") (Some "/1001/") None 2024
                     0 0 0 0 0 0)) H).
Defined.

(** ** Loading and saving the balance table *)



Lemma preprocess_data_Some (raw : list RawRow) :
  forall df : list Row,
    _preprocess_data raw = Some df ->
    Forall2 (fun r row => preprocess_row r = Some row) raw df.
Proof.
  induction raw as [| r raw IH]; intros df; simpl.
  - intros [= <-]. constructor.
  - destruct (preprocess_row r) as [row |] eqn:Hr; [| discriminate].
    destruct (_preprocess_data raw) as [rest |]; [| discriminate].
    intros [= <-]. constructor; [exact Hr | apply IH; reflexivity].
Qed.




Lemma preprocess_row_to_csv (row : Row) :
  year_consistent row -> preprocess_row (to_csv_row row) = Some row.
Proof.
  unfold year_consistent, preprocess_row. destruct row. cbn.
  intros ->. reflexivity.
Qed.

Lemma preprocess_data_to_csv (df : list Row) :
  Forall year_consistent df ->
  _preprocess_data (map to_csv_row df) = Some df.
Proof.
  induction 1 as [| row df Hrow _ IH]; [reflexivity |].
  cbn [map _preprocess_data].
  rewrite (preprocess_row_to_csv row Hrow), IH. reflexivity.
Qed.

Lemma preprocess_data_consistent (raw : list RawRow) (df : list Row) :
  _preprocess_data raw = Some df -> Forall year_consistent df.
Proof.
  intros Hdf. apply preprocess_data_Some in Hdf.
  induction Hdf as [| r row raw df Hr _ IH]; constructor; [| exact IH].
  unfold preprocess_row in Hr.
  destruct (extract_year (raw_period r)) as [y |] eqn:Hy; [| discriminate].
  injection Hr as <-. exact Hy.
Qed.



(** ** The solver: what a second pass does, what it counts, what it
    leaves *)

Lemma exceeds_tolerance_differs (x y : Q) :
  exceeds_tolerance (x - y) = true -> x <> y.
Proof.
  intros H ->. rewrite exceeds_tolerance_self in H. discriminate.
Qed.

Lemma adjusted_row_type (row : Row) :
  Adjuster._get_account_type (adjusted_row row)
  = Adjuster._get_account_type row.
Proof. unfold adjusted_row. destruct (is_adjusted row); reflexivity. Qed.

Lemma adjusted_row_visits (row : Row) :
  solver_visits (adjusted_row row) = solver_visits row.
Proof. unfold adjusted_row. destruct (is_adjusted row); reflexivity. Qed.

Lemma is_adjusted_typed (row : Row) :
  is_adjusted row = true ->
  exists side, normal_side (Adjuster._get_account_type row) = Some side.
Proof.
  unfold is_adjusted. intros H. apply andb_true_iff in H as [_ Hn].
  destruct (Adjuster._get_account_type row) eqn:Ht;
    try (eexists; reflexivity).
  destruct (unknown_row_not_adjusted row Ht) as [_ Hn']. congruence.
Qed.

Lemma derived_opening_adjusted (row : Row) :
  is_adjusted row = true ->
  derived_opening (adjusted_row row) = derived_opening row.
Proof.
  intros Ha. destruct (is_adjusted_typed row Ha) as [side Hside].
  unfold derived_opening.
  rewrite (calculate_opening_balance_toPair row side Hside).
  rewrite (calculate_opening_balance_toPair (adjusted_row row) side)
    by (rewrite adjusted_row_type; exact Hside).
  unfold adjusted_row. rewrite Ha. reflexivity.
Qed.

(** A row the solver has been over needs no adjustment. *)
Lemma adjusted_row_settled (row : Row) :
  is_adjusted (adjusted_row row) = false.
Proof.
  destruct (is_adjusted row) eqn:Ha.
  - unfold is_adjusted, needs_adjustment.
    rewrite (derived_opening_adjusted row Ha).
    unfold adjusted_row at 2 3. rewrite Ha. cbn [opening_debit opening_credit
      set_opening_credit set_opening_debit].
    rewrite !exceeds_tolerance_self. apply andb_false_r.
  - unfold adjusted_row. rewrite Ha. exact Ha.
Qed.

Lemma adjusted_row_fixed (row : Row) :
  adjusted_row (adjusted_row row) = adjusted_row row.
Proof.
  unfold adjusted_row at 1. rewrite adjusted_row_settled. reflexivity.
Qed.

(** X5.  A second pass of the solver over the frame it produced adjusts no
    row and returns that frame. *)
Theorem solver_second_pass_changes_nothing (df : list Row) :
  fst (fst (Adjuster.adjust_loop (fst (fst (Adjuster.adjust_loop df)))))
  = fst (fst (Adjuster.adjust_loop df))
  /\ snd (fst (Adjuster.adjust_loop (fst (fst (Adjuster.adjust_loop df)))))
     = 0%nat.
Proof.
  rewrite !adjust_loop_map. cbn [fst snd]. split.
  - induction df as [| row df IH]; [reflexivity |].
    cbn [fmap list_fmap] in *. rewrite adjusted_row_fixed. f_equal. exact IH.
  - apply filter_none_length.
    induction df as [| row df IH]; constructor;
      [apply adjusted_row_settled | exact IH].
Qed.

Lemma same_amount_refl (a : Q) : same_amount a a = true.
Proof.
  unfold same_amount. rewrite Z.eqb_refl, Pos.eqb_refl. reflexivity.
Qed.

Lemma same_amount_eq (a b : Q) : same_amount a b = true -> a = b.
Proof.
  unfold same_amount. intros H. apply andb_true_iff in H as [H1 H2].
  apply Z.eqb_eq in H1. apply Pos.eqb_eq in H2.
  destruct a, b. simpl in *. subst. reflexivity.
Qed.

Lemma opening_changed_adjusted (row : Row) :
  opening_changed (row, adjusted_row row) = is_adjusted row.
Proof.
  unfold opening_changed, adjusted_row. cbn [fst snd].
  destruct (is_adjusted row) eqn:Ha.
  - cbn [opening_debit opening_credit set_opening_credit set_opening_debit].
    unfold is_adjusted, needs_adjustment in Ha.
    apply andb_true_iff in Ha as [_ Hn].
    apply negb_true_iff, andb_false_iff.
    apply orb_true_iff in Hn as [Hn | Hn];
      apply exceeds_tolerance_differs in Hn; [left | right];
      destruct (same_amount _ _) eqn:E; try reflexivity;
      apply same_amount_eq in E; congruence.
  - rewrite !same_amount_refl. reflexivity.
Qed.

(** X6.  The number the solver returns is the number of rows whose stored
    opening pair differs after the pass, and the number of adjustment
    lines it logged. *)
Theorem solver_counts_the_changed_rows (df : list Row) :
  snd (fst (Adjuster.adjust_loop df))
  = length (List.filter opening_changed
              (zip df (fst (fst (Adjuster.adjust_loop df)))))
  /\ snd (fst (Adjuster.adjust_loop df))
     = length (List.filter
                 (fun ev => match ev with
                            | info_adjusted _ => true
                            | _ => false
                            end)
                 (snd (Adjuster.adjust_loop df)))
  /\ (snd (fst (Adjuster.adjust_loop df))
      <= length (Adjuster.select_years df))%nat.
Proof.
  rewrite adjust_loop_map. cbn [fst snd].
  split; [| split].
  - induction df as [| row df IH]; [reflexivity |].
    cbn [fmap list_fmap zip zip_with List.filter].
    rewrite opening_changed_adjusted.
    destruct (is_adjusted row); cbn [length]; rewrite IH; reflexivity.
  - assert (Hgen : forall (l : list Row) (k : nat),
      length (List.filter is_adjusted l)
      = length (List.filter
                  (fun ev => match ev with
                             | info_adjusted _ => true
                             | _ => false
                             end)
                  (concat (imap (fun i r => row_events (k + i) r) l)))).
    { induction l as [| row l IH]; intros k; [reflexivity |].
      rewrite imap_cons. cbn [concat List.filter].
      rewrite List.filter_app, length_app.
      assert (Hext : imap ((fun i r => row_events (k + i) r) ∘ S) l
                     = imap (fun i r => row_events (S k + i) r) l).
      { apply imap_ext. intros i r _. simpl. f_equal. lia. }
      rewrite Hext, <- (IH (S k)).
      unfold row_events at 1, is_adjusted at 1.
      destruct (solver_visits row) eqn:Hv; cbn [andb]; [| reflexivity].
      unfold Adjuster._calculate_opening_balance.
      destruct (Adjuster.closing_and_period_net _ row) as [cn pn].
      destruct (Adjuster.split_opening_net _ _) as [pr |]; cbn [snd];
        destruct (needs_adjustment row); reflexivity. }
    exact (Hgen df 0%nat).
  - unfold Adjuster.select_years.
    assert (Hgen : forall (l : list Row) (k : nat),
      (length (List.filter is_adjusted l)
       <= length (List.filter
                    (fun ir => Adjuster.isin (year (snd ir))
                                 Adjuster.target_years)
                    (imap (fun i r => (k + i, r)%nat) l)))%nat).
    { induction l as [| row l IH]; intros k; [reflexivity |].
      rewrite imap_cons. cbn [List.filter snd].
      assert (Hext : imap ((fun i r => (k + i, r)%nat) ∘ S) l
                     = imap (fun i r => (S k + i, r)%nat) l).
      { apply imap_ext. intros i r _. simpl. f_equal. lia. }
      rewrite Hext. specialize (IH (S k)).
      unfold is_adjusted at 1, solver_visits.
      destruct (Adjuster.isin (year row) Adjuster.target_years);
        cbn [andb length].
      - destruct (negb _ && needs_adjustment row); cbn [length]; lia.
      - exact IH. }
    exact (Hgen df 0%nat).
Qed.



(** ** The post-check of the adjuster *)

Lemma verify_step_bound (nets : Q * Q * Q) (res : Adjuster.VerifyResults)
  (row : Row) :
  exists (nets' : Q * Q * Q) (res' : Adjuster.VerifyResults),
    Adjuster.verify_step (Some nets) res row = inr (Some nets', res')
    /\ (Adjuster.passed res' + Adjuster.failed res'
        = S (Adjuster.passed res + Adjuster.failed res))%nat
    /\ (Adjuster.failed res' + length (Adjuster.errors res)
        = Adjuster.failed res + length (Adjuster.errors res'))%nat.
Proof.
  unfold Adjuster.verify_step.
  destruct (Adjuster.assigned_nets _ row) as [[[o p] c] |];
    [| destruct nets as [[o p] c]];
    destruct (exceeds_tolerance _); do 2 eexists;
    (split; [reflexivity |]); cbn; rewrite ?length_app; cbn; lia.
Qed.

Lemma verify_loop_bound (rows : list Row) :
  forall (nets : Q * Q * Q) (res : Adjuster.VerifyResults),
  exists res' : Adjuster.VerifyResults,
    Adjuster.verify_loop rows (Some nets) res = inr res'
    /\ (Adjuster.passed res' + Adjuster.failed res'
        = Adjuster.passed res + Adjuster.failed res + length rows)%nat
    /\ (Adjuster.failed res' + length (Adjuster.errors res)
        = Adjuster.failed res + length (Adjuster.errors res'))%nat.
Proof.
  induction rows as [| row rows IH]; intros nets res.
  - exists res. split; [reflexivity |]. cbn. lia.
  - destruct (verify_step_bound nets res row)
      as [nets1 [res1 [Hstep [Hc1 He1]]]].
    destruct (IH nets1 res1) as [res' [Hloop [Hc He]]].
    exists res'. cbn [Adjuster.verify_loop]. rewrite Hstep.
    split; [exact Hloop |]. cbn [length]. lia.
Qed.

Lemma verify_step_unbound (res : Adjuster.VerifyResults) (row : Row) :
  Adjuster._get_account_type row = unknown ->
  Adjuster.verify_step None res row = inl UnboundLocalError.
Proof.
  intros Hu. unfold Adjuster.verify_step. rewrite Hu. reflexivity.
Qed.

(** X8.  The post-check raises exactly when the first row it examines has no
    type, and then with the unbound-variable error; in every other case
    it runs through, counts each examined row once as passed or failed,
    and collects one error per failure. *)
Theorem verify_raises_exactly_on_unknown_first_row (rows : list Row) :
  (Adjuster.verify_loop rows None no_verify_results = inl UnboundLocalError
   <-> exists (r : Row) (rest : list Row),
         rows = r :: rest /\ Adjuster._get_account_type r = unknown)
  /\ (forall e : Exn,
        Adjuster.verify_loop rows None no_verify_results = inl e ->
        e = UnboundLocalError)
  /\ (forall res : Adjuster.VerifyResults,
        Adjuster.verify_loop rows None no_verify_results = inr res ->
        (Adjuster.passed res + Adjuster.failed res = length rows)%nat
        /\ Adjuster.failed res = length (Adjuster.errors res)).
Proof.
  destruct rows as [| r rest].
  { split; [split; [discriminate | intros [r [rest [H _]]]; discriminate] |].
    split; [discriminate |]. intros res [= <-]. split; reflexivity. }
  destruct (Adjuster._get_account_type r) eqn:Ht.
  6: { cbn [Adjuster.verify_loop].
       rewrite (verify_step_unbound no_verify_results r Ht).
       split; [split; [intros _; exists r, rest; auto | reflexivity] |].
       split; [intros e [= <-]; reflexivity | discriminate]. }
  all: assert (Hside : exists side,
         normal_side (Adjuster._get_account_type r) = Some side)
    by (rewrite Ht; eexists; reflexivity).
  all: destruct Hside as [side Hside].
  all: destruct (verify_step_known None no_verify_results r side Hside)
         as [res1 [Hstep _]].
  all: cbn [Adjuster.verify_loop]; rewrite Hstep.
  all: destruct (verify_loop_bound rest
                   (net side (opening_pair r), net side (period_pair r),
                    net side (closing_pair r)) res1)
         as [res' [Hloop [Hcount Herr]]].
  all: rewrite Hloop.
  all: pose proof Hstep as Hstep'.
  all: unfold Adjuster.verify_step in Hstep';
       rewrite (assigned_nets_normal_side _ side r Hside) in Hstep'.
  all: split;
       [split; [discriminate
               | intros [r' [rest' [[= <- <-] Hu]]]; congruence] |].
  all: split; [discriminate |].
  all: intros res [= <-].
  all: destruct (exceeds_tolerance _); injection Hstep' as <-;
       cbn in Hcount, Herr; cbn [length]; split; lia.
Qed.

Lemma verify_raises_exactly_on_unknown_first_row_witness :
  (exists (r : Row) (rest : list Row),
     [unknown_balanced_row; balanced_asset_row] = r :: rest
     /\ Adjuster._get_account_type r = unknown)
  /\ Adjuster.verify_loop [unknown_balanced_row; balanced_asset_row]
       None no_verify_results = inl UnboundLocalError.
Proof.
  assert (H : exists (r : Row) (rest : list Row),
     [unknown_balanced_row; balanced_asset_row] = r :: rest
     /\ Adjuster._get_account_type r = unknown)
    by (do 2 eexists; split; reflexivity).
  split; [exact H |].
  exact (proj2 (proj1 (verify_raises_exactly_on_unknown_first_row
                         [unknown_balanced_row; balanced_asset_row])) H).
Defined.





(** ** The run of the adjuster: failures, the backup, a second run *)



Lemma adjusted_row_consistent (row : Row) :
  year_consistent row -> year_consistent (adjusted_row row).
Proof.
  unfold year_consistent, adjusted_row.
  destruct (is_adjusted row); intros H; exact H.
Qed.

Lemma adjusted_frame_consistent (df : list Row) :
  Forall year_consistent df -> Forall year_consistent (adjusted_row <$> df).
Proof.
  induction 1 as [| row df Hrow _ IH]; constructor;
    [apply adjusted_row_consistent; exact Hrow | exact IH].
Qed.






(** ** The accounting-equation check: every row counted once *)

(** X12.  Every row of the balance table is counted exactly once: as passed,
    as failed, or, when its code gives no type, not at all; and there is
    one error record per failure. *)
Theorem accounting_equation_counts_each_row_once (st : Validator.State) :
  (Validator.passed (fst (Validator.validate_accounting_equation st))
   + Validator.failed (fst (Validator.validate_accounting_equation st))
   + length (List.filter (fun row => negb (is_classified row))
               (Validator.balance_df st))
   = length (Validator.balance_df st))%nat
  /\ Validator.failed (fst (Validator.validate_accounting_equation st))
     = length (Validator.errors
                 (fst (Validator.validate_accounting_equation st))).
Proof.
  unfold Validator.validate_accounting_equation. cbn [fst].
  rewrite equation_loop_violations.
  cbn [Validator.passed Validator.failed Validator.errors
       Validator.no_results app]. split; [| reflexivity].
  induction (Validator.balance_df st) as [| row rows IH]; [reflexivity |].
  cbn [List.filter omap list_omap length].
  assert (Hrow :
    ((if equation_passes row then 1 else 0)
     + (match equation_violation row with Some _ => 1 | None => 0 end)
     + (if negb (is_classified row) then 1 else 0) = 1)%nat).
  { unfold equation_passes, equation_violation, is_classified.
    destruct (Validator._get_account_type (subject_code row)); cbn;
      try reflexivity; destruct (exceeds_tolerance _); reflexivity. }
  destruct (equation_passes row), (equation_violation row),
    (negb (is_classified row)); cbn [length] in *; lia.
Qed.

(** ** Grouping *)

Section GroupByFacts.
Context {K A : Type}.
Variable key_eqb : K -> K -> bool.
Variable key_leb : K -> K -> bool.
Variable key_of : A -> option K.

Lemma group_keys_skips_unkeyed (rows : list A) :
  forall ks : list K,
    fold_left (fun ks r =>
                 match key_of r with
                 | Some k => insert_key key_eqb key_leb k ks
                 | None => ks
                 end) rows ks
    = fold_left (fun ks r =>
                   match key_of r with
                   | Some k => insert_key key_eqb key_leb k ks
                   | None => ks
                   end) (List.filter (keyed key_of) rows) ks.
Proof.
  induction rows as [| r rows IH]; intros ks; [reflexivity |].
  cbn [fold_left List.filter]. unfold keyed at 1.
  destruct (key_of r) eqn:Hk; cbn [fold_left]; rewrite ?Hk; apply IH.
Qed.

Lemma filter_has_key_keyed (k : K) (rows : list A) :
  List.filter (has_key key_eqb key_of k) (List.filter (keyed key_of) rows)
  = List.filter (has_key key_eqb key_of k) rows.
Proof.
  induction rows as [| r rows IH]; [reflexivity |].
  cbn [List.filter]. unfold keyed at 1, has_key at 2.
  destruct (key_of r) eqn:Hk.
  - cbn [List.filter]. unfold has_key at 1. rewrite Hk, IH. reflexivity.
  - exact IH.
Qed.

(** Rows without a key take no part in the grouping. *)
Lemma groupby_skips_unkeyed (rows : list A) :
  groupby key_eqb key_leb key_of rows
  = groupby key_eqb key_leb key_of (List.filter (keyed key_of) rows).
Proof.
  unfold groupby, group_keys. rewrite <- group_keys_skips_unkeyed.
  apply map_ext. intros k. rewrite filter_has_key_keyed. reflexivity.
Qed.

(** The rows of a group are rows of the frame. *)
Lemma groupby_rows (rows : list A) (k : K) (g : list A) :
  In (k, g) (groupby key_eqb key_leb key_of rows) ->
  forall r : A, In r g -> In r rows.
Proof.
  unfold groupby. intros Hin r Hr.
  apply in_map_iff in Hin as [k' [Heq _]]. injection Heq as _ <-.
  apply filter_In in Hr as [Hr _]. exact Hr.
Qed.

End GroupByFacts.

(** ** Year continuity: rows it never looks at *)

Lemma insert_by_year_In (r x : Row) (sorted : list Row) :
  In x (insert_by_year r sorted) -> x = r \/ In x sorted.
Proof.
  induction sorted as [| r' rest IH]; simpl.
  - intros [<- | []]. left. reflexivity.
  - destruct (year r <? year r')%Z; simpl.
    + intros [<- | H]; [left; reflexivity | right; exact H].
    + intros [<- | H]; [right; left; reflexivity |].
      destruct (IH H) as [-> | H'];
        [left; reflexivity | right; right; exact H'].
Qed.

Lemma sort_by_year_In (group : list Row) (x : Row) :
  In x (sort_by_year group) -> In x group.
Proof.
  unfold sort_by_year.
  assert (Hgen : forall (l acc : list Row),
            In x (fold_left (fun sorted r => insert_by_year r sorted) l acc) ->
            In x l \/ In x acc).
  { induction l as [| r l IH]; intros acc; simpl; [auto |].
    intros H. destruct (IH _ H) as [H1 | H1]; [auto |].
    destruct (insert_by_year_In _ _ _ H1) as [-> | H2]; auto. }
  intros H. destruct (Hgen group [] H) as [H1 | []]. exact H1.
Qed.

Lemma continuity_group_no_consecutive (company code : string)
  (group : list Row) :
  (forall r r' : Row, In r group -> In r' group ->
     (year r' <> year r + 1)%Z) ->
  forall res : Validator.Results Validator.ContinuityError,
    Validator.continuity_group company code res group = res.
Proof.
  induction group as [| prev rest IH]; intros Hgap res; [reflexivity |].
  destruct rest as [| curr rest']; [reflexivity |].
  cbn [Validator.continuity_group].
  rewrite continuity_step_gap
    by (apply Hgap; [left; reflexivity | right; left; reflexivity]).
  apply IH. intros r r' Hr Hr'. apply Hgap; right; assumption.
Qed.

(** X13.  Rows without an account code are never part of a continuity
    comparison: the check over a table is the check over its coded
    rows. *)
Theorem year_continuity_ignores_rows_without_code (df : list Row) :
  Validator.continuity_loop df
  = Validator.continuity_loop (List.filter has_code df).
Proof.
  unfold Validator.continuity_loop.
  rewrite (groupby_skips_unkeyed pair_eqb pair_leb
             Validator.company_code_key df).
  f_equal. f_equal. clear.
  induction df as [| row df IH]; [reflexivity |].
  cbn [List.filter]. unfold keyed at 1, has_code at 1,
    Validator.company_code_key at 1.
  destruct (subject_code row); rewrite IH; reflexivity.
Qed.

(** X14.  When no two rows of the table lie in consecutive years (a table of
    a single year, for one), the continuity check compares nothing and
    reports neither a pass nor a failure. *)
Theorem year_continuity_needs_consecutive_years (df : list Row) :
  (forall r r' : Row, In r df -> In r' df -> (year r' <> year r + 1)%Z) ->
  Validator.continuity_loop df = Validator.no_results.
Proof.
  intros Hgap. unfold Validator.continuity_loop.
  pose proof (groupby_rows pair_eqb pair_leb
                Validator.company_code_key df) as Hrows.
  revert Hrows.
  generalize (groupby pair_eqb pair_leb Validator.company_code_key df).
  intros groups Hrows.
  assert (Hgen : forall res : Validator.Results Validator.ContinuityError,
    fold_left
      (fun res g =>
         let '((company, subject_code), group) := g in
         let group := sort_by_year group in
         if (length group <? 2)%nat then res
         else Validator.continuity_group company subject_code res group)
      groups res = res).
  { induction groups as [| [[company code] g] groups IH]; intros res;
      [reflexivity |].
    cbn [fold_left].
    assert (Hstep : (if (length (sort_by_year g) <? 2)%nat then res
                     else Validator.continuity_group company code res
                            (sort_by_year g)) = res).
    { destruct (length (sort_by_year g) <? 2)%nat; [reflexivity |].
      apply continuity_group_no_consecutive. intros r r' Hr Hr'.
      apply Hgap; apply (Hrows (company, code) g);
        try (left; reflexivity); apply sort_by_year_In; assumption. }
    rewrite Hstep. apply IH. intros k g' Hin r Hr.
    apply (Hrows k g'); [right; exact Hin | exact Hr]. }
  apply Hgen.
Qed.

Lemma year_continuity_needs_consecutive_years_witness :
  (forall r r' : Row,
     In r [closing_2023; opening_in 2025 "2025" 480] ->
     In r' [closing_2023; opening_in 2025 "2025" 480] ->
     (year r' <> year r + 1)%Z)
  /\ Validator.continuity_loop [closing_2023; opening_in 2025 "2025" 480]
     = Validator.no_results.
Proof.
  assert (H : forall r r' : Row,
     In r [closing_2023; opening_in 2025 "2025" 480] ->
     In r' [closing_2023; opening_in 2025 "2025" 480] ->
     (year r' <> year r + 1)%Z).
  { intros r r' [<- | [<- | []]] [<- | [<- | []]]; simpl; lia. }
  split; [exact H |].
  apply (year_continuity_needs_consecutive_years _ H).
Defined.

(** ** The subject tree *)

Lemma string_append_assoc (a b c : string) :
  ((a ++ b) ++ c)%string = (a ++ (b ++ c))%string.
Proof.
  induction a as [| x a IH]; simpl; [reflexivity |].
  rewrite IH. reflexivity.
Qed.

Lemma string_length_append (a b : string) :
  String.length (a ++ b) = (String.length a + String.length b)%nat.
Proof.
  induction a as [| x a IH]; simpl; [reflexivity |].
  rewrite IH. reflexivity.
Qed.

Lemma concat_app_sep (sep : string) (l1 l2 : list string) :
  l1 <> [] -> l2 <> [] ->
  String.concat sep (l1 ++ l2)
  = (String.concat sep l1 ++ sep ++ String.concat sep l2)%string.
Proof.
  intros H1 H2. induction l1 as [| x l1 IH]; [congruence |].
  destruct l1 as [| y l1].
  - destruct l2 as [| z l2]; [congruence |]. reflexivity.
  - change (String.concat sep ((x :: y :: l1) ++ l2))
      with (x ++ sep ++ String.concat sep ((y :: l1) ++ l2))%string.
    rewrite IH by discriminate.
    change (String.concat sep (x :: y :: l1))
      with (x ++ sep ++ String.concat sep (y :: l1))%string.
    rewrite !string_append_assoc. reflexivity.
Qed.

Lemma split_on_app_sep (sep : ascii) (a b : string) :
  split_on sep (a ++ String sep b) = split_on sep a ++ split_on sep b.
Proof.
  induction a as [| c a IH]; simpl.
  - rewrite Ascii.eqb_refl. reflexivity.
  - rewrite IH. destruct (Ascii.eqb c sep); [reflexivity |].
    pose proof (split_on_nonempty sep a) as Hne.
    destruct (split_on sep a); [congruence | reflexivity].
Qed.

Lemma parent_candidates_In (codes : list string) (code p : string) :
  In p (Validator.parent_candidates codes code)
  <-> In p codes
      /\ exists i : nat,
           (1 <= i < length (split_on "." code))%nat
           /\ p = join "." (take i (split_on "." code)).
Proof.
  unfold Validator.parent_candidates. rewrite filter_In, in_map_iff.
  rewrite existsb_exists. split.
  - intros [[i [Hp Hi]] [q [Hq Heq]]]. apply String.eqb_eq in Heq. subst q.
    apply in_seq in Hi. split; [exact Hq |]. exists i. split; [lia | auto].
  - intros [Hq [i [Hi Hp]]]. split.
    + exists i. split; [auto |]. apply in_seq. lia.
    + exists p. split; [exact Hq | apply String.eqb_refl].
Qed.

(** A candidate is a proper dot-prefix of the code. *)
Lemma parent_candidate_prefix (codes : list string) (code p : string) :
  In p (Validator.parent_candidates codes code) ->
  exists rest : string, code = (p ++ "." ++ rest)%string.
Proof.
  intros H. apply parent_candidates_In in H as [_ [i [Hi ->]]].
  exists (join "." (drop i (split_on "." code))).
  rewrite <- (join_split_on "." code) at 1. unfold join.
  rewrite <- (take_drop i (split_on "." code)) at 1.
  apply concat_app_sep.
  - intros Hnil. apply (f_equal (@length string)) in Hnil.
    rewrite length_take in Hnil. simpl in Hnil. lia.
  - intros Hnil. apply (f_equal (@length string)) in Hnil.
    rewrite length_drop in Hnil. simpl in Hnil. lia.
Qed.

(** Every present code of which the code is a dot-extension is a
    candidate. *)
Lemma present_prefix_candidate (codes : list string)
  (code p rest : string) :
  In p codes -> code = (p ++ "." ++ rest)%string ->
  In p (Validator.parent_candidates codes code).
Proof.
  intros Hp ->. apply parent_candidates_In. split; [exact Hp |].
  change (p ++ "." ++ rest)%string with (p ++ String "." rest)%string.
  rewrite split_on_app_sep.
  pose proof (split_on_nonempty "." p) as Hp1.
  pose proof (split_on_nonempty "." rest) as Hr1.
  exists (length (split_on "." p)). split.
  - rewrite length_app.
    destruct (split_on "." p); [congruence |].
    destruct (split_on "." rest); [congruence |]. simpl. lia.
  - rewrite take_app_length. symmetry. apply join_split_on.
Qed.

Lemma longest_spec (candidates : list string) (p : string) :
  Validator.longest candidates = Some p ->
  In p candidates
  /\ forall c : string,
       In c candidates -> (String.length c <= String.length p)%nat.
Proof.
  unfold Validator.longest. destruct candidates as [| c0 rest];
    [discriminate |].
  intros [= <-].
  assert (Hgen : forall (l : list string) (best : string),
    (In (fold_left
           (fun best x =>
              if (String.length best <? String.length x)%nat
              then x else best) l best) (best :: l))
    /\ forall c, In c (best :: l) ->
         (String.length c
          <= String.length
               (fold_left
                  (fun best x =>
                     if (String.length best <? String.length x)%nat
                     then x else best) l best))%nat).
  { induction l as [| x l IH]; intros best; cbn [fold_left].
    - split; [left; reflexivity |]. intros c [<- | []]. lia.
    - destruct (String.length best <? String.length x)%nat eqn:E.
      + apply Nat.ltb_lt in E. destruct (IH x) as [Hin Hmax]. split.
        * destruct Hin as [<- | Hin]; [right; left; reflexivity |].
          right; right; exact Hin.
        * intros c [<- | [<- | Hc]].
          -- specialize (Hmax x (or_introl eq_refl)). lia.
          -- apply Hmax. left. reflexivity.
          -- apply Hmax. right. exact Hc.
      + apply Nat.ltb_ge in E. destruct (IH best) as [Hin Hmax]. split.
        * destruct Hin as [<- | Hin]; [left; reflexivity |].
          right; right; exact Hin.
        * intros c [<- | [<- | Hc]].
          -- apply Hmax. left. reflexivity.
          -- specialize (Hmax best (or_introl eq_refl)). lia.
          -- apply Hmax. right. exact Hc. }
  exact (Hgen rest c0).
Qed.

Lemma tree_append_In (tree : list (string * list Row))
  (p : string) (row : Row) (k : string) (children : list Row)
  (child : Row) :
  In (k, children) (Validator.tree_append tree p row) ->
  In child children ->
  (k = p /\ child = row)
  \/ exists children0 : list Row,
       In (k, children0) tree /\ In child children0.
Proof.
  induction tree as [| [k0 rows0] tree IH]; simpl.
  - intros [[= <- <-] | []] [<- | []]. left. auto.
  - destruct (String.eqb k0 p) eqn:E.
    + apply String.eqb_eq in E. subst k0.
      intros [[= <- <-] | Hin] Hc.
      * apply in_app_or in Hc as [Hc | [<- | []]].
        -- right. exists rows0. auto.
        -- left. auto.
      * right. exists children. auto.
    + intros [[= <- <-] | Hin] Hc.
      * right. exists rows0. auto.
      * destruct (IH Hin Hc) as [H | [children0 [H1 H2]]]; [left; exact H |].
        right. exists children0. auto.
Qed.

Lemma tree_append_keys (tree : list (string * list Row))
  (p : string) (row : Row) (k : string) :
  In k (map fst (Validator.tree_append tree p row))
  <-> k = p \/ In k (map fst tree).
Proof.
  induction tree as [| [k0 rows0] tree IH]; simpl.
  - split; [intros [<- | []]; auto | intros [-> | []]; auto].
  - destruct (String.eqb k0 p) eqn:E; simpl.
    + apply String.eqb_eq in E. subst k0. split; [auto |].
      intros [-> | H]; auto.
    + rewrite IH. split; [intros [H | [H | H]]; auto |].
      intros [H | [H | H]]; auto.
Qed.

Lemma tree_append_NoDup (tree : list (string * list Row))
  (p : string) (row : Row) :
  NoDup (map fst tree) ->
  NoDup (map fst (Validator.tree_append tree p row)).
Proof.
  induction tree as [| [k0 rows0] tree IH]; simpl; intros Hnd.
  - apply NoDup_cons. split; [apply not_elem_of_nil | apply NoDup_nil_2].
  - destruct (String.eqb k0 p) eqn:E; simpl; [exact Hnd |].
    apply String.eqb_neq in E. apply NoDup_cons in Hnd as [Hk Hnd].
    apply NoDup_cons. split; [| apply IH; exact Hnd].
    rewrite list_elem_of_In, tree_append_keys.
    intros [-> | H]; [congruence |].
    apply Hk, list_elem_of_In, H.
Qed.

(** X15.  In the tree built for a slice, every child is a row of the slice and
    hangs under the longest code of the slice of which its own code is a
    dot-extension: the key is the code of some row of the slice, the
    child's code is the key, a dot and a remainder, and no other code of
    the slice with that property is longer.  The keys of the tree are
    pairwise distinct. *)
Theorem subject_tree_links_child_to_longest_present_prefix
  (df : list Row) (key : string) (children : list Row) (child : Row) :
  In (key, children) (Validator._build_subject_tree df) ->
  In child children ->
  In child df
  /\ In key (code_texts df)
  /\ (exists rest : string,
        str_cell (subject_code child) = (key ++ "." ++ rest)%string)
  /\ (forall p rest : string,
        In p (code_texts df) ->
        str_cell (subject_code child) = (p ++ "." ++ rest)%string ->
        (String.length p <= String.length key)%nat)
  /\ NoDup (map fst (Validator._build_subject_tree df)).
Proof.
  unfold Validator._build_subject_tree. fold (code_texts df).
  set (step := fun (tree : list (string * list Row)) (row : Row) =>
         match Validator.longest
                 (Validator.parent_candidates (code_texts df)
                    (str_cell (subject_code row))) with
         | Some parent_code => Validator.tree_append tree parent_code row
         | None => tree
         end).
  assert (Hinv : forall (rows : list Row) (tree : list (string * list Row)),
    (forall r, In r rows -> In r df) ->
    (forall k ch c, In (k, ch) tree -> In c ch ->
       In c df
       /\ Validator.longest
            (Validator.parent_candidates (code_texts df)
               (str_cell (subject_code c))) = Some k) ->
    forall k ch c, In (k, ch) (fold_left step rows tree) -> In c ch ->
      In c df
      /\ Validator.longest
           (Validator.parent_candidates (code_texts df)
              (str_cell (subject_code c))) = Some k).
  { induction rows as [| row rows IH]; intros tree Hsub Htree;
      [exact Htree |].
    cbn [fold_left]. apply IH; [intros r Hr; apply Hsub; right; exact Hr |].
    intros k ch c Hin Hc. unfold step in Hin.
    destruct (Validator.longest _) as [parent_code |] eqn:Hl;
      [| apply (Htree k ch c Hin Hc)].
    destruct (tree_append_In _ _ _ _ _ _ Hin Hc)
      as [[-> ->] | [ch0 [H1 H2]]].
    - split; [apply Hsub; left; reflexivity | exact Hl].
    - apply (Htree k ch0 c H1 H2). }
  assert (Hnd : forall (rows : list Row) (tree : list (string * list Row)),
    NoDup (map fst tree) -> NoDup (map fst (fold_left step rows tree))).
  { induction rows as [| row rows IH]; intros tree Ht; [exact Ht |].
    cbn [fold_left]. apply IH. unfold step.
    destruct (Validator.longest _); [apply tree_append_NoDup |]; exact Ht. }
  intros Hin Hc.
  destruct (Hinv df [] (fun r H => H) (fun k ch c H => match H with end)
              key children child Hin Hc) as [Hdf Hl].
  apply longest_spec in Hl as [Hcand Hmax].
  split; [exact Hdf |].
  split; [apply parent_candidates_In in Hcand as [H _]; exact H |].
  split; [apply (parent_candidate_prefix _ _ _ Hcand) |].
  split.
  - intros p rest Hp Hcode. apply Hmax.
    apply (present_prefix_candidate _ _ p rest Hp Hcode).
  - apply Hnd. apply NoDup_nil_2.
Qed.

Lemma subject_tree_links_child_to_longest_present_prefix_witness :
  let grandchild :=
    mkRow "A" "2024" (Some "1221.02.01") None None false None
      0 0 0 0 0 0 2024 in
  let df := cancelling_family "1221" ++ [grandchild] in
  Validator._build_subject_tree df
  = [("1221", tl (cancelling_family "1221")); ("1221.02", [grandchild])]
  /\ In grandchild df
  /\ In "1221.02" (code_texts df)
  /\ (forall p rest : string,
        In p (code_texts df) ->
        str_cell (subject_code grandchild) = (p ++ "." ++ rest)%string ->
        (String.length p <= String.length "1221.02")%nat).
Proof.
  intros grandchild df.
  assert (Htree : Validator._build_subject_tree df
                  = [("1221", tl (cancelling_family "1221"));
                     ("1221.02", [grandchild])]) by reflexivity.
  split; [exact Htree |].
  destruct (subject_tree_links_child_to_longest_present_prefix
              df "1221.02" [grandchild] grandchild)
    as [H1 [H2 [_ [H4 _]]]].
  - rewrite Htree. right. left. reflexivity.
  - left. reflexivity.
  - split; [exact H1 |]. split; [exact H2 | exact H4].
Defined.

(** ** The hierarchy check on a slice without sub-accounts *)

Lemma split_on_no_dot (s : string) :
  no_dot s = true -> split_on "." s = [s].
Proof.
  induction s as [| c rest IH]; [reflexivity |].
  cbn [no_dot split_on]. intros H. apply andb_true_iff in H as [Hc Hrest].
  apply negb_true_iff in Hc. rewrite Hc, (IH Hrest). reflexivity.
Qed.

Lemma subject_tree_no_dot (df : list Row) :
  (forall row : Row, In row df ->
     no_dot (str_cell (subject_code row)) = true) ->
  Validator._build_subject_tree df = [].
Proof.
  unfold Validator._build_subject_tree.
  generalize (map (fun r => str_cell (subject_code r)) df) at 1.
  intros codes Hdf.
  assert (Hgen : forall (rows : list Row) (tree : list (string * list Row)),
    (forall row, In row rows ->
       no_dot (str_cell (subject_code row)) = true) ->
    fold_left
      (fun tree row =>
         match Validator.longest
                 (Validator.parent_candidates codes
                    (str_cell (subject_code row))) with
         | Some parent_code => Validator.tree_append tree parent_code row
         | None => tree
         end) rows tree = tree).
  { induction rows as [| row rows IH]; intros tree Hrows; [reflexivity |].
    cbn [fold_left]. unfold Validator.parent_candidates.
    rewrite (split_on_no_dot _ (Hrows row (or_introl eq_refl))).
    cbn. apply IH. intros r Hr. apply Hrows. right. exact Hr. }
  apply Hgen. exact Hdf.
Qed.

(** X16.  When no account row of the table carries a dotted code, the
    hierarchy check finds no parent and reports neither a pass nor a
    failure. *)
Theorem hierarchy_needs_dotted_codes (df : list Row) :
  (forall row : Row, In row df -> is_dimension_row row = false ->
     no_dot (str_cell (subject_code row)) = true) ->
  Validator.hierarchy_loop df = Validator.no_results.
Proof.
  intros Hdf. unfold Validator.hierarchy_loop.
  pose proof (groupby_rows pair_eqb pair_leb Validator.company_period_key
                (List.filter (fun r => negb (is_dimension_row r)) df))
    as Hrows.
  revert Hrows.
  generalize (groupby pair_eqb pair_leb Validator.company_period_key
                (List.filter (fun r => negb (is_dimension_row r)) df)).
  intros groups Hrows.
  assert (Hgen : forall res : Validator.Results Validator.HierarchyError,
    fold_left
      (fun res g =>
         let '((company, period), period_group) := g in
         let subject_tree := Validator._build_subject_tree period_group in
         fold_left (Validator.hierarchy_parent company period period_group)
           subject_tree res)
      groups res = res).
  { induction groups as [| [[company period] g] groups IH]; intros res;
      [reflexivity |].
    cbn [fold_left]. rewrite subject_tree_no_dot.
    - cbn [fold_left]. apply IH. intros k g' Hin r Hr.
      apply (Hrows k g'); [right; exact Hin | exact Hr].
    - intros row Hrow.
      assert (Hin : In row (List.filter (fun r => negb (is_dimension_row r))
                              df))
        by (apply (Hrows (company, period) g);
            [left; reflexivity | exact Hrow]).
      apply filter_In in Hin as [Hin Hdim].
      apply Hdf; [exact Hin | apply negb_true_iff; exact Hdim]. }
  apply Hgen.
Qed.

Lemma hierarchy_needs_dotted_codes_witness :
  (forall row : Row,
     In row [balanced_asset_row; unknown_unbalanced_row] ->
     is_dimension_row row = false ->
     no_dot (str_cell (subject_code row)) = true)
  /\ Validator.hierarchy_loop [balanced_asset_row; unknown_unbalanced_row]
     = Validator.no_results.
Proof.
  assert (H : forall row : Row,
     In row [balanced_asset_row; unknown_unbalanced_row] ->
     is_dimension_row row = false ->
     no_dot (str_cell (subject_code row)) = true).
  { intros row [<- | [<- | []]] _; reflexivity. }
  split; [exact H | apply (hierarchy_needs_dotted_codes _ H)].
Defined.

(** ** One error record per failure *)

Lemma count_pass_consistent {E : Type} (r : Validator.Results E) :
  consistent_results r -> consistent_results (Validator.count_pass r).
Proof. unfold consistent_results. intros H. exact H. Qed.

Lemma count_fail_consistent {E : Type} (r : Validator.Results E) (e : E) :
  consistent_results r -> consistent_results (Validator.count_fail r e).
Proof.
  unfold consistent_results. cbn. rewrite length_app. cbn. lia.
Qed.

Lemma fold_left_consistent {E X : Type}
  (f : Validator.Results E -> X -> Validator.Results E) (l : list X) :
  (forall r x, consistent_results r -> consistent_results (f r x)) ->
  forall r, consistent_results r -> consistent_results (fold_left f l r).
Proof.
  intros Hf. induction l as [| x l IH]; intros r Hr; [exact Hr |].
  cbn [fold_left]. apply IH, Hf, Hr.
Qed.

Lemma equation_loop_consistent (df : list Row) :
  consistent_results
    (fold_left Validator.equation_step df Validator.no_results).
Proof.
  apply fold_left_consistent; [| reflexivity].
  intros r row Hr. unfold Validator.equation_step.
  destruct (Validator.equation_nets _ row) as [[[[o p] c] e] |]; [| exact Hr].
  destruct (exceeds_tolerance _);
    [apply count_fail_consistent | apply count_pass_consistent]; exact Hr.
Qed.

Lemma continuity_loop_consistent (df : list Row) :
  consistent_results (Validator.continuity_loop df).
Proof.
  unfold Validator.continuity_loop.
  apply fold_left_consistent; [| reflexivity].
  intros r [[company code] g] Hr.
  destruct (length (sort_by_year g) <? 2)%nat; [exact Hr |].
  revert r Hr. induction (sort_by_year g) as [| prev rest IH];
    intros r Hr; [exact Hr |].
  destruct rest as [| curr rest']; [exact Hr |].
  cbn [Validator.continuity_group]. apply IH.
  unfold Validator.continuity_step.
  destruct (negb (year curr =? year prev + 1)%Z); [exact Hr |].
  destruct (negb _);
    [apply count_fail_consistent | apply count_pass_consistent]; exact Hr.
Qed.

Lemma hierarchy_loop_consistent (df : list Row) :
  consistent_results (Validator.hierarchy_loop df).
Proof.
  unfold Validator.hierarchy_loop.
  apply fold_left_consistent; [| reflexivity].
  intros r [[company period] g] Hr.
  apply fold_left_consistent; [| exact Hr].
  intros r' [parent_code children] Hr'. unfold Validator.hierarchy_parent.
  destruct (find _ g); [| exact Hr'].
  apply fold_left_consistent; [| exact Hr'].
  intros r'' [[field pv] cs] Hr''. unfold Validator.check_step.
  destruct (exceeds_tolerance _);
    [apply count_fail_consistent | apply count_pass_consistent]; exact Hr''.
Qed.

Lemma voucher_loop_consistent (ms : list (VoucherSum * Row)) :
  consistent_results
    (fold_left Validator.voucher_step ms Validator.no_results).
Proof.
  apply fold_left_consistent; [| reflexivity].
  intros r [vs row] Hr. unfold Validator.voucher_step.
  destruct (negb _ || negb _);
    [apply count_fail_consistent | apply count_pass_consistent]; exact Hr.
Qed.

Lemma tag_results_consistent {E : Type}
  (tag : E -> Validator.ErrorRecord) (r : Validator.Results E) :
  consistent_results r -> consistent_results (Validator.tag_results tag r).
Proof.
  unfold consistent_results, Validator.tag_results. cbn.
  rewrite length_map. intros H. exact H.
Qed.

(** ** The run of all checks, its reports and the exit code *)

Lemma all_errors_length
  (ds : list (Validator.Validation
              * Validator.Results Validator.ErrorRecord)) :
  Forall (fun d => consistent_results (snd d)) ds ->
  length (flat_map (fun d => map (fun e => (fst d, e))
                                (Validator.errors (snd d))) ds)
  = failed_sum ds.
Proof.
  unfold failed_sum.
  induction 1 as [| d ds Hd _ IH]; [reflexivity |].
  cbn [flat_map map]. rewrite length_app, length_map, IH.
  unfold consistent_results in Hd. unfold list_sum. cbn [fold_right]. lia.
Qed.

(** The loop over the four checks, written out. *)
Lemma validation_loop_run (st : Validator.State) :
  exists (st' : Validator.State),
    Validator.balance_df st' = Validator.balance_df st
    /\ Validator.voucher_df st' = Validator.voucher_df st
    /\ let r1 := Validator.tag_results Validator.equation_record
                   (fold_left Validator.equation_step
                      (Validator.balance_df st) Validator.no_results) in
       let r2 := Validator.tag_results Validator.continuity_record
                   (Validator.continuity_loop (Validator.balance_df st)) in
       let r3 := Validator.tag_results Validator.hierarchy_record
                   (Validator.hierarchy_loop (Validator.balance_df st)) in
       let three := [(Validator.accounting_equation_check, r1);
                     (Validator.year_continuity_check, r2);
                     (Validator.hierarchy_correctness_check, r3)] in
       match Validator.voucher_summary (Validator.voucher_df st) with
       | None =>
           Validator.validation_loop st
           = (Validator.mkOverall (passed_sum three) (failed_sum three) three,
              st', [(Validator.voucher_reconciliation_check, ValueError)])
       | Some summary =>
           let r4 := Validator.tag_results Validator.voucher_record
                       (fold_left Validator.voucher_step
                          (Validator.merged_df summary
                             (Validator.balance_df st))
                          Validator.no_results) in
           let four := three ++ [(Validator.voucher_reconciliation_check,
                                  r4)] in
           Validator.validation_loop st
           = (Validator.mkOverall (passed_sum four) (failed_sum four) four,
              st', [])
       end.
Proof.
  unfold Validator.validation_loop, Validator.validations.
  cbn [fold_left]. unfold Validator.validation_step, Validator.lift_check,
    Validator.validate_accounting_equation,
    Validator.validate_year_continuity,
    Validator.validate_hierarchy_correctness,
    Validator.validate_voucher_reconciliation.
  cbn [fst snd Validator.balance_df Validator.voucher_df
       Validator.validation_results Validator.total_passed
       Validator.total_failed Validator.details app
       Validator.accounting_equation Validator.year_continuity
       Validator.hierarchy_correctness Validator.voucher_reconciliation].
  destruct (Validator.voucher_summary (Validator.voucher_df st))
    as [summary |]; eexists; (split; [| split]).
  all: cbv zeta.
  3, 6: match goal with
        | |- (?o, _, _) = (?o', _, _) =>
            assert (Ho : o = o');
            [unfold passed_sum, failed_sum;
             cbn [map list_sum fold_right snd app fst Validator.passed
                  Validator.failed Validator.tag_results];
             f_equal; lia
            | rewrite Ho; reflexivity]
        end.
  all: reflexivity.
Qed.

Lemma validation_loop_consistent (st : Validator.State) :
  Forall (fun d => consistent_results (snd d))
    (Validator.details (fst (fst (Validator.validation_loop st))))
  /\ Validator.total_passed (fst (fst (Validator.validation_loop st)))
     = passed_sum
         (Validator.details (fst (fst (Validator.validation_loop st))))
  /\ Validator.total_failed (fst (fst (Validator.validation_loop st)))
     = failed_sum
         (Validator.details (fst (fst (Validator.validation_loop st)))).
Proof.
  destruct (validation_loop_run st) as [st' [_ [_ Hrun]]]. cbv zeta in Hrun.
  pose proof (tag_results_consistent Validator.equation_record _
                (equation_loop_consistent (Validator.balance_df st))) as H1.
  pose proof (tag_results_consistent Validator.continuity_record _
                (continuity_loop_consistent (Validator.balance_df st))) as H2.
  pose proof (tag_results_consistent Validator.hierarchy_record _
                (hierarchy_loop_consistent (Validator.balance_df st))) as H3.
  destruct (Validator.voucher_summary (Validator.voucher_df st))
    as [summary |]; rewrite Hrun; cbn [fst Validator.details
      Validator.total_passed Validator.total_failed app].
  - pose proof (tag_results_consistent Validator.voucher_record _
                  (voucher_loop_consistent
                     (Validator.merged_df summary
                        (Validator.balance_df st)))) as H4.
    split; [repeat constructor; assumption | split; reflexivity].
  - split; [repeat constructor; assumption | split; reflexivity].
Qed.



Lemma run_all_validations_shape (o o' : Validator.Object)
  (overall : Validator.Overall)
  (failures : list (Validator.Validation * Exn)) :
  Validator.run_all_validations o = inr (overall, o', failures) ->
  exists st : Validator.State,
    overall = fst (fst (Validator.validation_loop st))
    /\ o' = Validator.mkObject (Validator.balance_file o)
              (Validator.voucher_file o)
              (Some (Validator.text_report overall))
              (Some (Validator.csv_report overall))
              (Validator.frames o')
              (Validator.results o').
Proof.
  unfold Validator.run_all_validations.
  destruct (match Validator.frames o with
            | Some fr => inr fr
            | None => Validator.load_data o
            end) as [e | [df vdf]]; [discriminate |].
  destruct (Validator.validation_loop _) as [[ov st] fl] eqn:Hloop.
  intros [= <- <- <-]. eexists. rewrite Hloop. split; reflexivity.
Qed.

(** X18.  What a completed run of all checks writes.  The two input files are
    left as they were.  The CSV report has one line per failure, all of
    them, or the single all-passed line when the total of failures is
    zero.  Each section of the text report shows the first errors of its
    check, ten at most, and says how many more there are when there are
    more than ten. *)
Theorem reports_of_a_completed_run (o o' : Validator.Object)
  (overall : Validator.Overall)
  (failures : list (Validator.Validation * Exn)) :
  Validator.run_all_validations o = inr (overall, o', failures) ->
  Validator.balance_file o' = Validator.balance_file o
  /\ Validator.voucher_file o' = Validator.voucher_file o
  /\ Validator.report_txt o' = Some (Validator.text_report overall)
  /\ (Validator.total_failed overall = 0%nat ->
      Validator.report_csv o' = Some Validator.csv_all_passed)
  /\ (Validator.total_failed overall <> 0%nat ->
      Validator.report_csv o'
      = Some (Validator.csv_errors (Validator.all_errors overall))
      /\ length (Validator.all_errors overall)
         = Validator.total_failed overall)
  /\ forall sec : Validator.ReportSection,
       In sec (Validator.rep_sections (Validator.text_report overall)) ->
       length (Validator.sec_shown sec)
       = Nat.min 10 (Validator.sec_failed sec)
       /\ Validator.sec_more sec
          = (if (10 <? Validator.sec_failed sec)%nat
             then Some (Validator.sec_failed sec - 10)%nat else None).
Proof.
  intros Hrun.
  destruct (run_all_validations_shape _ _ _ _ Hrun) as [st [Hov Ho']].
  destruct (validation_loop_consistent st) as [Hcons [_ Hf]].
  rewrite <- Hov in Hcons, Hf.
  pose proof (all_errors_length _ Hcons) as Hlen.
  fold (Validator.all_errors overall) in Hlen. rewrite <- Hf in Hlen.
  rewrite Ho'. cbn [Validator.balance_file Validator.voucher_file
                    Validator.report_txt Validator.report_csv].
  do 3 (split; [reflexivity |]).
  split; [| split].
  - intros H0. unfold Validator.csv_report.
    destruct (Validator.all_errors overall); [reflexivity |].
    rewrite H0 in Hlen. discriminate.
  - intros Hne. split; [| exact Hlen]. unfold Validator.csv_report.
    destruct (Validator.all_errors overall); [| reflexivity].
    simpl in Hlen. congruence.
  - intros sec Hsec. unfold Validator.text_report in Hsec.
    cbn [Validator.rep_sections] in Hsec.
    apply in_map_iff in Hsec as [[name result] [<- Hd]].
    rewrite Forall_forall in Hcons.
    pose proof (Hcons (name, result)
                  (proj2 (list_elem_of_In _ _) Hd)) as Hc.
    unfold consistent_results in Hc. cbn [snd] in Hc.
    cbn [Validator.report_section Validator.sec_shown Validator.sec_failed
         Validator.sec_more].
    rewrite length_take, Hc. split; reflexivity.
Qed.

Lemma reports_of_a_completed_run_witness :
  exists (overall : Validator.Overall) (o' : Validator.Object)
         (failures : list (Validator.Validation * Exn)),
    Validator.run_all_validations
      (fresh_object (Some (map to_csv_row [unbalanced_asset_row]))
         (Some []))
    = inr (overall, o', failures)
    /\ Validator.total_failed overall = 1%nat
    /\ Validator.balance_file o'
       = Some (map to_csv_row [unbalanced_asset_row])
    /\ Validator.report_txt o' = Some (Validator.text_report overall).
Proof.
  destruct (Validator.run_all_validations
              (fresh_object (Some (map to_csv_row [unbalanced_asset_row]))
                 (Some []))) as [e | [[overall o'] failures]] eqn:Hrun;
    [vm_compute in Hrun; discriminate |].
  exists overall, o', failures. split; [reflexivity |].
  destruct (reports_of_a_completed_run _ _ _ _ Hrun) as [Hb [_ [Ht _]]].
  split; [| split; [exact Hb | exact Ht]].
  vm_compute in Hrun. injection Hrun as <- _ _. reflexivity.
Defined.



(** ** The voucher check: lines and frames it has nothing to compare
    for *)

Lemma voucher_summary_coded (vdf : list Voucher) :
  Validator.voucher_summary vdf
  = Validator.voucher_summary (List.filter voucher_coded vdf).
Proof.
  unfold Validator.voucher_summary.
  rewrite (groupby_skips_unkeyed triple_eqb triple_leb
             Validator.voucher_key vdf).
  f_equal. f_equal.
  induction vdf as [| v vdf IH]; [reflexivity |].
  cbn [List.filter]. unfold keyed at 1, voucher_coded at 1,
    Validator.voucher_key at 1.
  destruct (v_subject_code v); rewrite IH; reflexivity.
Qed.

Lemma merged_df_no_balance (summary : list VoucherSum) :
  Validator.merged_df summary [] = [].
Proof.
  unfold Validator.merged_df, Validator.balance_filtered,
    Validator.merge_inner. cbn [List.filter].
  induction summary as [| vs summary IH]; [reflexivity |].
  cbn [flat_map map app List.filter] in *. exact IH.
Qed.

(** X20.  Voucher lines without an account code enter no sum and no
    comparison: the check gives the same result with them removed.  With
    no voucher lines at all, or with an empty balance table, it compares
    nothing. *)
Theorem voucher_reconciliation_ignores_uncoded_lines (st : Validator.State) :
  fst (Validator.validate_voucher_reconciliation st)
  = fst (Validator.validate_voucher_reconciliation
           (Validator.mkState (Validator.balance_df st)
              (List.filter voucher_coded (Validator.voucher_df st))
              (Validator.validation_results st)))
  /\ (Validator.voucher_df st = [] ->
      fst (Validator.validate_voucher_reconciliation st)
      = inr Validator.no_results)
  /\ (Validator.balance_df st = [] ->
      Validator.voucher_summary (Validator.voucher_df st) <> None ->
      fst (Validator.validate_voucher_reconciliation st)
      = inr Validator.no_results).
Proof.
  unfold Validator.validate_voucher_reconciliation.
  cbn [Validator.balance_df Validator.voucher_df
       Validator.validation_results].
  split; [| split].
  - rewrite <- voucher_summary_coded.
    destruct (Validator.voucher_summary (Validator.voucher_df st));
      reflexivity.
  - intros ->. reflexivity.
  - intros -> Hsum.
    destruct (Validator.voucher_summary (Validator.voucher_df st));
      [| congruence].
    rewrite merged_df_no_balance. reflexivity.
Qed.

Lemma voucher_reconciliation_ignores_uncoded_lines_witness :
  Validator.balance_df (reconciliation_state [voucher_6602 "2024"] []) = []
  /\ Validator.voucher_summary
       (Validator.voucher_df
          (reconciliation_state [voucher_6602 "2024"] [])) <> None
  /\ fst (Validator.validate_voucher_reconciliation
            (reconciliation_state [voucher_6602 "2024"] []))
     = inr Validator.no_results.
Proof.
  assert (Hsum : Validator.voucher_summary
                   (Validator.voucher_df
                      (reconciliation_state [voucher_6602 "2024"] []))
                 <> None) by (vm_compute; discriminate).
  split; [reflexivity |]. split; [exact Hsum |].
  destruct (voucher_reconciliation_ignores_uncoded_lines
              (reconciliation_state [voucher_6602 "2024"] []))
    as [_ [_ H]].
  exact (H eq_refl Hsum).
Defined.

(** ** The adjuster and the validator together *)

(** X21.  After a run of the adjuster that wrote the balance file, the
    accounting-equation check of the validator finds no violation among
    the rows of the target years of the written table: a row the
    validator gives a type has the same type for the adjuster, whose
    post-check passed it, and a row the validator gives no type is
    skipped. *)
Theorem written_table_passes_the_validator (w : World) :
  fst (Adjuster.run_adjustment w) = inr true ->
  report_file (files w) = false ->
  report_file (files (snd (Adjuster.run_adjustment w))) = true ->
  exists df' : list Row,
    balance_df (snd (Adjuster.run_adjustment w)) = Some df'
    /\ original_file (files (snd (Adjuster.run_adjustment w)))
       = Some (map to_csv_row df')
    /\ _preprocess_data (map to_csv_row df') = Some df'
    /\ (forall row : Row,
          In row (Adjuster.target_data df') ->
          equation_violation row = None)
    /\ Validator.failed
         (fst (Validator.validate_accounting_equation
                 (balance_state (Adjuster.target_data df')))) = 0%nat.
Proof.
  rewrite run_adjustment_run.
  destruct (original_file (files w)) as [raw |]; [| discriminate].
  destruct (_preprocess_data raw) as [df |] eqn:Hpre; [| discriminate].
  cbv zeta.
  destruct (Nat.eqb (length (List.filter is_adjusted df)) 0).
  { cbn. intros _ H1 H2. congruence. }
  destruct (Adjuster.verify_loop _ None no_verify_results)
    as [e | res] eqn:Hloop; [discriminate |].
  destruct (Nat.ltb 0 (Adjuster.failed res)) eqn:Hfailed; [discriminate |].
  cbn. intros _ _ _. exists (adjusted_row <$> df).
  split; [reflexivity |]. split; [reflexivity |].
  split.
  { apply preprocess_data_to_csv, adjusted_frame_consistent.
    apply (preprocess_data_consistent raw df Hpre). }
  assert (Hrows : forall row : Row,
            In row (Adjuster.target_data (adjusted_row <$> df)) ->
            equation_violation row = None).
  { intros row Hrow.
    destruct (verify_loop_sound _ _ _ _ Hloop) as [_ Hall].
    apply Nat.ltb_ge in Hfailed.
    unfold equation_violation.
    destruct (Validator._get_account_type (subject_code row)) eqn:Ht;
      try reflexivity.
    all: assert (Hadj : Adjuster._get_account_type row
                        = Validator._get_account_type (subject_code row))
      by (apply adjuster_type_of_typed_code;
          [reflexivity | rewrite Ht; discriminate]).
    all: rewrite Ht in Hadj.
    all: assert (Hside : exists side, normal_side
                   (Adjuster._get_account_type row) = Some side)
      by (rewrite Hadj; eexists; reflexivity).
    all: destruct Hside as [side Hside].
    all: pose proof (Hall ltac:(simpl; lia) row side Hrow Hside) as Hid.
    all: rewrite Hadj in Hside.
    all: rewrite (equation_nets_normal_side _ side row Hside).
    all: apply exceeds_tolerance_false in Hid; rewrite Hid; reflexivity. }
  split; [exact Hrows |].
  unfold Validator.validate_accounting_equation, balance_state.
  cbn [fst Validator.balance_df].
  rewrite equation_loop_violations.
  cbn [Validator.failed Validator.no_results].
  clear Hloop. revert Hrows.
  generalize (Adjuster.target_data (adjusted_row <$> df)).
  intros rows Hrows. induction rows as [| row rows IH]; [reflexivity |].
  cbn [omap list_omap].
  rewrite (Hrows row (or_introl eq_refl)).
  apply IH. intros r Hr. apply Hrows. right. exact Hr.
Qed.

Lemma written_table_passes_the_validator_witness :
  fst (Adjuster.run_adjustment (world_on_disk [unbalanced_asset_row]))
  = inr true
  /\ report_file (files (world_on_disk [unbalanced_asset_row])) = false
  /\ report_file
       (files (snd (Adjuster.run_adjustment
                      (world_on_disk [unbalanced_asset_row])))) = true
  /\ exists df' : list Row,
       balance_df (snd (Adjuster.run_adjustment
                          (world_on_disk [unbalanced_asset_row])))
       = Some df'
       /\ Validator.failed
            (fst (Validator.validate_accounting_equation
                    (balance_state (Adjuster.target_data df')))) = 0%nat.
Proof.
  split; [reflexivity |]. split; [reflexivity |]. split; [reflexivity |].
  destruct (written_table_passes_the_validator
              (world_on_disk [unbalanced_asset_row])
              eq_refl eq_refl eq_refl) as [df' [H1 [_ [_ [_ H5]]]]].
  exists df'. split; [exact H1 | exact H5].
Defined.
